(** * backend/routes/assistantRoutes.js

    A shallow embedding of the assistant routes: interpreter path
    resolution, the inventory fetch, and the two request handlers
    ("/ask" and "/audio") that bridge an HTTP request to a child process.

    The handlers are event driven.  A request is modelled by the state the
    handler's closure owns (the response object, the two output buffers)
    together with the ordered log of the effects the code performs; the
    database, the child process and the file system are the environment,
    whose answers are inputs of the model: how [Ingredient.find] settles,
    whether [spawn] returns, and the list of events the child object emits,
    in any number and order.  The library functions the module calls
    ([path.join], [path.resolve], [fs.existsSync] and the strings'
    [toLowerCase]) are parameters of the definitions that call them.

    An exception that escapes a listener is logged as [Uncaught] and ends
    that listener only.  What the host does next is not fixed here: later
    events are still dispatched, so a statement over all event lists also
    covers a host that stops at the first uncaught exception (it sees a
    prefix of the list). *)

From Stdlib Require Import ZArith NArith String Ascii List Bool Lia.
From stdpp Require Import base option list gmap.
Import ListNotations.

Local Open Scope N_scope.

(* ===================================================================== *)
(** ** JavaScript strings                                                *)
(* ===================================================================== *)

Module Js.

(** A JavaScript string is a sequence of UTF-16 code units. *)
Abbreviation jsstring := (list N).

(** Source literals are plain ASCII; [lit] gives their code units. *)
Definition lit (s : string) : jsstring :=
  List.map N_of_ascii (list_ascii_of_string s).

(** White space and line terminators of ECMAScript, the code units that
    [String.prototype.trim] removes. *)
Definition is_white (c : N) : bool :=
  (c =? 9) || (c =? 10) || (c =? 11) || (c =? 12) || (c =? 13) ||
  (c =? 32) || (c =? 160) || (c =? 5760) ||
  ((8192 <=? c) && (c <=? 8202)) ||
  (c =? 8232) || (c =? 8233) || (c =? 8239) || (c =? 8287) ||
  (c =? 12288) || (c =? 65279).

Fixpoint trimStart (s : jsstring) : jsstring :=
  match s with
  | [] => []
  | c :: rest => if is_white c then trimStart rest else s
  end.

Definition trimEnd (s : jsstring) : jsstring := rev (trimStart (rev s)).

(** [s.trim()] *)
Definition trim (s : jsstring) : jsstring := trimEnd (trimStart s).

(** Lower-casing of one code unit of the Basic Latin and Latin-1 blocks:
    the capitals A-Z and U+00C0-U+00DE (the multiplication sign U+00D7
    left out) move by 32. *)
Definition lower_unit (c : N) : N :=
  if (65 <=? c) && (c <=? 90) then c + 32
  else if (192 <=? c) && (c <=? 222) && negb (c =? 215) then c + 32
  else c.

(** A lower-casing function for examples.  It agrees with
    [String.prototype.toLowerCase] on strings made of Basic Latin and
    Latin-1 code units, and it is applied to such strings only.  It is not
    the builtin: on other code units the builtin also changes letters (and
    may change the length), which this function does not.  The builtin
    itself is a parameter of the definitions that call it. *)
Definition latin1_lower (s : jsstring) : jsstring := List.map lower_unit s.

Fixpoint startsWith (prefix s : jsstring) : bool :=
  match prefix, s with
  | [], _ => true
  | _ :: _, [] => false
  | p :: prefix', c :: s' => (p =? c) && startsWith prefix' s'
  end.

(** [s.includes(needle)] *)
Fixpoint includes (s needle : jsstring) : bool :=
  startsWith needle s ||
  match s with
  | [] => false
  | _ :: s' => includes s' needle
  end.

(** The values that travel through the handlers: request bodies, JSON
    response bodies, exit codes.  Numbers are only carried around by this
    code, never computed with, so integers stand for them; [JNaN] is kept
    because it is falsy. *)
#[warnings="-register-all"] Inductive value : Type :=
  | JUndefined
  | JNull
  | JBool (b : bool)
  | JNum (z : Z)
  | JNaN
  | JStr (s : jsstring)
  | JArr (items : list value)
  | JObj (fields : list (jsstring * value)).

(** Truthiness, as tested by [!v] and [a || b]. *)
Definition truthy (v : value) : bool :=
  match v with
  | JUndefined | JNull | JNaN => false
  | JBool b => b
  | JNum z => negb (z =? 0)%Z
  | JStr s => negb (length s =? 0)%nat
  | JArr _ | JObj _ => true
  end.

(** [typeof v === "string"] *)
Definition is_string (v : value) : bool :=
  match v with JStr _ => true | _ => false end.

(** Own property lookup in an object written as a field list. *)
Fixpoint field (k : jsstring) (fields : list (jsstring * value)) : value :=
  match fields with
  | [] => JUndefined
  | (k', v) :: rest => if decide (k' = k) then v else field k rest
  end.

(** An exception object; only its [message] is ever read. *)
Record error : Type := Error { message : jsstring }.

End Js.

Import Js.

(* ===================================================================== *)
(** ** Interpreter path resolution                                       *)
(* ===================================================================== *)

(** [path.sep] is fixed by the platform the server runs on. *)
Inductive platform : Type := posix | win32.

Definition path_sep (p : platform) : jsstring :=
  match p with
  | posix => lit "/"
  | win32 => lit "\"
  end.

Section PythonPath.

(** [getPythonPath], lines 12-38.  The environment of the module: the
    platform, [__dirname], [path.join] and [fs.existsSync]. *)
Variable os : platform.
Variable dirname : jsstring.
Variable path_join : list jsstring -> jsstring.
Variable existsSync : jsstring -> bool.

Definition possiblePaths : list jsstring :=
  [ path_join [dirname; lit ".."; lit ".venv"; lit "Scripts"; lit "python.exe"];
    path_join [dirname; lit ".."; lit "venv"; lit "Scripts"; lit "python.exe"];
    path_join [dirname; lit ".."; lit ".venv"; lit "bin"; lit "python"];
    path_join [dirname; lit ".."; lit "venv"; lit "bin"; lit "python"];
    lit "python.exe";
    lit "python3";
    lit "python" ].

(** The test in the loop body. *)
Definition usable (pythonPath : jsstring) : bool :=
  existsSync pythonPath || negb (includes pythonPath (path_sep os)).

(** The [for ... of] loop: [Some p] when the loop returns [p] from its
    body, [None] when it runs off the end of the list. *)
Fixpoint first_usable (paths : list jsstring) : option jsstring :=
  match paths with
  | [] => None
  | pythonPath :: rest =>
      if usable pythonPath then Some pythonPath else first_usable rest
  end.

Definition getPythonPath : jsstring :=
  match first_usable possiblePaths with
  | Some pythonPath => pythonPath
  | None => lit "python"  (* default fallback *)
  end.

End PythonPath.

(* ===================================================================== *)
(** ** Inventory fetch                                                   *)
(* ===================================================================== *)

(** [fetchInventoryFromDB], lines 47-57.  A fetched document has a string
    [name] (the code calls [toLowerCase] on it) and a [currentStock] that is
    a number, [null] or [undefined]. *)
Inductive stock : Type :=
  | Quantity (q : Z)
  | StockNull
  | StockUndefined.

Record Ingredient : Type := mkIngredient {
  name : jsstring;
  currentStock : stock
}.

(** [s ?? 0] *)
Definition stock_or_zero (s : stock) : Z :=
  match s with
  | Quantity q => q
  | StockNull | StockUndefined => 0%Z
  end.

(** [inventory[key] = v] on an object created by [{}], for a number [v].
    The key ["__proto__"] reaches the accessor inherited from
    [Object.prototype], which ignores a number; every other key becomes
    (or overwrites) an own property. *)
Definition obj_set (key : jsstring) (v : Z) (inventory : gmap jsstring Z)
  : gmap jsstring Z :=
  if decide (key = lit "__proto__") then inventory
  else <[key := v]> inventory.

Section Inventory.

(** [String.prototype.toLowerCase] belongs to the runtime, not to this
    module: it is a parameter, and nothing is assumed about it. *)
Variable toLowerCase : jsstring -> jsstring.

(** The body of the [forEach] callback. *)
Definition add_item (inventory : gmap jsstring Z) (item : Ingredient)
  : gmap jsstring Z :=
  obj_set (toLowerCase (name item)) (stock_or_zero (currentStock item)) inventory.

(** The object [fetchInventoryFromDB] builds from the fetched documents:
    [inventory = {}] and then the [forEach] loop. *)
Definition inventory_of (ingredients : list Ingredient) : gmap jsstring Z :=
  fold_left add_item ingredients ∅.

End Inventory.

(* ===================================================================== *)
(** ** Requests, effects and the response object                         *)
(* ===================================================================== *)

Record Response : Type := mkResponse {
  status : Z;
  body : value
}.

(** What a handler does to the world, in the order it does it. *)
Inductive effect : Type :=
  | Find                                            (* Ingredient.find({}) *)
  | Spawn (command : jsstring) (args : list value)  (* spawn(command, args) *)
  | ConsoleError (label detail : jsstring)          (* console.error(label, detail) *)
  | Unlink (path : jsstring)                        (* fs.unlink(path, callback) *)
  | Send (r : Response)                             (* a response leaves the server *)
  | Uncaught (e : error).                           (* an exception nobody caught *)

(** The state one request owns: the response object ([statusCode],
    [headersSent]), the two buffers of the closure, and the effect log,
    oldest effect first. *)
Record request : Type := mkRequest {
  statusCode : Z;
  headersSent : bool;
  data : jsstring;
  errorOutput : jsstring;
  effects : list effect
}.

Definition incoming : request :=
  {| statusCode := 200; headersSent := false;
     data := []; errorOutput := []; effects := [] |}.

(** Handler code either completes with a value or throws. *)
Inductive outcome (A : Type) : Type :=
  | Done (a : A)
  | Thrown (e : error).
Arguments Done {A} a.
Arguments Thrown {A} e.

Definition action (A : Type) : Type := request -> outcome A * request.

#[global] Instance action_ret : MRet action :=
  fun A a st => (Done a, st).

#[global] Instance action_bind : MBind action :=
  fun A B f m st =>
    match m st with
    | (Done a, st') => f a st'
    | (Thrown e, st') => (Thrown e, st')
    end.

Definition throw {A : Type} (e : error) : action A :=
  fun st => (Thrown e, st).

(** [try { body } catch (err) { handler }] *)
Definition try_catch {A : Type} (body : action A) (handler : error -> action A)
  : action A :=
  fun st =>
    match body st with
    | (Done a, st') => (Done a, st')
    | (Thrown e, st') => handler e st'
    end.

Definition perform (e : effect) : action unit :=
  fun st =>
    (Done tt,
     {| statusCode := statusCode st; headersSent := headersSent st;
        data := data st; errorOutput := errorOutput st;
        effects := effects st ++ [e] |}).

Definition get : action request := fun st => (Done st, st).

(** [console.error(label, detail)] *)
Definition console_error (label detail : jsstring) : action unit :=
  perform (ConsoleError label detail).

(** [res.status(code)] *)
Definition res_status (code : Z) : action unit :=
  fun st =>
    (Done tt,
     {| statusCode := code; headersSent := headersSent st;
        data := data st; errorOutput := errorOutput st;
        effects := effects st |}).

(** The exception of the HTTP library when a response is started twice. *)
Definition ERR_HTTP_HEADERS_SENT : error :=
  Error (lit "Cannot set headers after they are sent to the client").

(** Modelled from the spec: the response object of the HTTP framework,
    which is not part of this module ("the framework guarantees at most
    one send per request object").  [res.json(payload)] sends the payload
    with the current status code; once the headers are sent, another call
    throws and nothing more reaches the client. *)
Definition res_json (payload : value) : action unit :=
  fun st =>
    if headersSent st then (Thrown ERR_HTTP_HEADERS_SENT, st)
    else
      (Done tt,
       {| statusCode := statusCode st; headersSent := true;
          data := data st; errorOutput := errorOutput st;
          effects := effects st ++ [Send (mkResponse (statusCode st) payload)] |}).

(** [data += chunk] and [errorOutput += chunk] *)
Definition append_data (chunk : jsstring) : action unit :=
  fun st =>
    (Done tt,
     {| statusCode := statusCode st; headersSent := headersSent st;
        data := data st ++ chunk; errorOutput := errorOutput st;
        effects := effects st |}).

Definition append_errorOutput (chunk : jsstring) : action unit :=
  fun st =>
    (Done tt,
     {| statusCode := statusCode st; headersSent := headersSent st;
        data := data st; errorOutput := errorOutput st ++ chunk;
        effects := effects st |}).

(** [let data = ""; let errorOutput = "";] *)
Definition init_buffers : action unit :=
  fun st =>
    (Done tt,
     {| statusCode := statusCode st; headersSent := headersSent st;
        data := []; errorOutput := [];
        effects := effects st |}).

(** The responses that reached the client, oldest first. *)
Fixpoint responses (log : list effect) : list Response :=
  match log with
  | [] => []
  | Send r :: rest => r :: responses rest
  | _ :: rest => responses rest
  end.

(** The child processes that were started: command and argument list. *)
Fixpoint spawned (log : list effect) : list (jsstring * list value) :=
  match log with
  | [] => []
  | Spawn command args :: rest => (command, args) :: spawned rest
  | _ :: rest => spawned rest
  end.

(** The files whose deletion was asked for. *)
Fixpoint unlinked (log : list effect) : list jsstring :=
  match log with
  | [] => []
  | Unlink file :: rest => file :: unlinked rest
  | _ :: rest => unlinked rest
  end.

(** How many times the inventory collection was queried. *)
Fixpoint queries (log : list effect) : nat :=
  match log with
  | [] => 0%nat
  | Find :: rest => S (queries rest)
  | _ :: rest => queries rest
  end.

(* ===================================================================== *)
(** ** The environment                                                   *)
(* ===================================================================== *)

(** How [Ingredient.find({})] settles. *)
Inductive db_result : Type :=
  | Resolved (docs : list Ingredient)
  | Rejected (e : error).

(** What the call [spawn(...)] does: it returns a child process object, or
    throws before returning one. *)
Inductive spawn_result : Type :=
  | Child
  | SpawnThrows (e : error).

(** The events a child process object emits to the listeners.  A chunk is
    given as the string [chunk.toString()] yields; the exit code is [None]
    for JavaScript's [null]. *)
Inductive child_event : Type :=
  | StdoutData (chunk : jsstring)
  | StderrData (chunk : jsstring)
  | ErrorEvent (err : error)
  | Close (code : option Z).

(** In the audio route the callback of [fs.unlink] is one more event. *)
Inductive audio_event : Type :=
  | FromChild (e : child_event)
  | UnlinkCallback (err : option error).

Record uploaded_file : Type := mkFile { path : jsstring }.

Definition code_value (code : option Z) : value :=
  match code with
  | Some z => JNum z
  | None => JNull
  end.

(** [code !== 0] *)
Definition code_not_zero (code : option Z) : bool :=
  match code with
  | Some z => negb (z =? 0)%Z
  | None => true
  end.

(** Running a listener: an exception that escapes it is caught by nobody. *)
Definition emit (listener : action unit) (st : request) : request :=
  match listener st with
  | (Done _, st') => st'
  | (Thrown e, st') =>
      {| statusCode := statusCode st'; headersSent := headersSent st';
         data := data st'; errorOutput := errorOutput st';
         effects := effects st' ++ [Uncaught e] |}
  end.

(** [await Ingredient.find({})] *)
Definition find_all (db : db_result) : action (list Ingredient) :=
  perform Find;;
  match db with
  | Resolved docs => mret docs
  | Rejected e => throw e
  end.

(** [fetchInventoryFromDB()], with the runtime's [toLowerCase]. *)
Definition fetchInventoryFromDB (toLowerCase : jsstring -> jsstring)
    (db : db_result) : action (gmap jsstring Z) :=
  ingredients ← find_all db;
  mret (inventory_of toLowerCase ingredients).

(** [spawn(command, args)] *)
Definition spawn (sp : spawn_result) (command : jsstring) (args : list value)
  : action unit :=
  perform (Spawn command args);;
  match sp with
  | Child => mret tt
  | SpawnThrows e => throw e
  end.

(* ===================================================================== *)
(** ** The routes                                                        *)
(* ===================================================================== *)

(** [req.body.text] for a body that is neither [undefined] nor [null]:
    an object is asked for its property, a primitive or an array has none. *)
Definition property_text (body : value) : value :=
  match body with
  | JObj fields => field (lit "text") fields
  | _ => JUndefined
  end.

(** [const { text } = req.body]: destructuring [undefined] or [null]
    throws a [TypeError]. *)
Definition destructure_text (body : value) : action value :=
  match body with
  | JUndefined =>
      throw (Error (lit "Cannot destructure property 'text' of 'req.body' as it is undefined."))
  | JNull =>
      throw (Error (lit "Cannot destructure property 'text' of 'req.body' as it is null."))
  | _ => mret (property_text body)
  end.

(** [!text || typeof text !== "string" || text.trim().length === 0];
    the last operand is evaluated for strings only. *)
Definition no_text (text : value) : bool :=
  negb (truthy text) || negb (is_string text) ||
  match text with
  | JStr s => (length (trim s) =? 0)%nat
  | _ => false
  end.

Section Routes.

(** The runtime's [toLowerCase], the two constants of the module, and
    [path.resolve]. *)
Variable toLowerCase : jsstring -> jsstring.
Variable pythonPath : jsstring.
Variable scriptPath : jsstring.
Variable path_resolve : jsstring -> jsstring.

(** *** Listeners shared by both routes *)

Definition on_stdout (chunk : jsstring) : action unit :=
  append_data chunk.

Definition on_stderr (chunk : jsstring) : action unit :=
  append_errorOutput chunk;;
  console_error (lit "Python stderr:") chunk.

(** *** POST /ask, lines 59-110 *)

Definition ask_on_error (err : error) : action unit :=
  console_error (lit "Failed to start Python process:") (message err);;
  res_status 500;;
  res_json (JObj [ (lit "error", JStr (lit "Failed to start Python process"));
                   (lit "details", JStr (message err)) ]).

Definition ask_on_close (code : option Z) : action unit :=
  st ← get;
  if code_not_zero code || truthy (JStr (errorOutput st)) then
    console_error (lit "Python process error output:") (errorOutput st);;
    res_status 500;;
    res_json (JObj [ (lit "error", JStr (lit "Python process failed"));
                     (lit "code", code_value code);
                     (lit "stderr", JStr (trim (errorOutput st))) ])
  else
    res_json (JObj [ (lit "reply", JStr (trim (data st))) ]).

Definition ask_listener (e : child_event) : action unit :=
  match e with
  | StdoutData chunk => on_stdout chunk
  | StderrData chunk => on_stderr chunk
  | ErrorEvent err => ask_on_error err
  | Close code => ask_on_close code
  end.

(** The body of the handler up to the point where the listeners are
    attached.  The result is [Some inventory] when a child was spawned and
    is being listened to, [None] when the handler has answered itself. *)
Definition ask_handler (req_body : value) (db : db_result) (sp : spawn_result)
  : action (option (gmap jsstring Z)) :=
  try_catch
    (text ← destructure_text req_body;
     if no_text text then
       res_status 400;;
       res_json (JObj [ (lit "error", JStr (lit "No text provided")) ]);;
       mret None
     else
       inventory ← fetchInventoryFromDB toLowerCase db;
       spawn sp pythonPath [JStr scriptPath; text];;
       init_buffers;;
       mret (Some inventory))
    (fun err =>
       console_error (lit "Assistant error:") (message err);;
       res_status 500;;
       res_json (JObj [ (lit "error", JStr (lit "Assistant failed"));
                        (lit "details", JStr (message err)) ]);;
       mret None).

(** The listeners run once per event, in the order of emission. *)
Definition ask_events (events : list child_event) (st : request) : request :=
  fold_left (fun st e => emit (ask_listener e) st) events st.

(** One request to /ask: the handler, then the events of the child. *)
Definition ask (req_body : value) (db : db_result) (sp : spawn_result)
    (events : list child_event) : request :=
  match ask_handler req_body db sp incoming with
  | (Done (Some _), st) => ask_events events st
  | (Done None, st) => st
  | (Thrown e, st) => emit (throw e) st
  end.

(** *** POST /audio, lines 112-169 *)

Definition audio_on_close (filePath : jsstring) (code : option Z) : action unit :=
  perform (Unlink filePath);;
  st ← get;
  if code_not_zero code || truthy (JStr (errorOutput st)) then
    console_error (lit "Python audio process error output:") (errorOutput st);;
    res_status 500;;
    res_json (JObj [ (lit "error", JStr (lit "Python audio process failed"));
                     (lit "code", code_value code);
                     (lit "stderr", JStr (trim (errorOutput st))) ])
  else
    res_json (JObj [ (lit "response", JStr (trim (data st))) ]).

Definition audio_on_error (err : error) : action unit :=
  console_error (lit "Failed to start Python audio process:") (message err);;
  res_status 500;;
  res_json (JObj [ (lit "error", JStr (lit "Failed to start Python audio process"));
                   (lit "details", JStr (message err)) ]).

(** The callback handed to [fs.unlink]. *)
Definition audio_on_unlinked (err : option error) : action unit :=
  match err with
  | Some e => console_error (lit "Failed to delete temp audio file:") (message e)
  | None => mret tt
  end.

Definition audio_listener (filePath : jsstring) (e : audio_event) : action unit :=
  match e with
  | FromChild (StdoutData chunk) => on_stdout chunk
  | FromChild (StderrData chunk) => on_stderr chunk
  | FromChild (ErrorEvent err) => audio_on_error err
  | FromChild (Close code) => audio_on_close filePath code
  | UnlinkCallback err => audio_on_unlinked err
  end.

(** The result is [Some filePath] when a child was spawned and is being
    listened to. *)
Definition audio_handler (req_file : option uploaded_file) (sp : spawn_result)
  : action (option jsstring) :=
  try_catch
    (match req_file with
     | None =>
         res_status 400;;
         res_json (JObj [ (lit "error", JStr (lit "No audio file uploaded")) ]);;
         mret None
     | Some file =>
         let filePath := path_resolve (path file) in
         spawn sp pythonPath [JStr scriptPath; JStr (lit "--audio"); JStr filePath];;
         init_buffers;;
         mret (Some filePath)
     end)
    (fun err =>
       console_error (lit "Audio assistant error:") (message err);;
       res_status 500;;
       res_json (JObj [ (lit "error", JStr (lit "Assistant audio processing failed"));
                        (lit "details", JStr (message err)) ]);;
       mret None).

Definition audio_events (filePath : jsstring) (events : list audio_event)
    (st : request) : request :=
  fold_left (fun st e => emit (audio_listener filePath e) st) events st.

(** One request to /audio, after the upload middleware has run. *)
Definition audio (req_file : option uploaded_file) (sp : spawn_result)
    (events : list audio_event) : request :=
  match audio_handler req_file sp incoming with
  | (Done (Some filePath), st) => audio_events filePath events st
  | (Done None, st) => st
  | (Thrown e, st) => emit (throw e) st
  end.

End Routes.

(* ===================================================================== *)
(** ** Traces of a child that runs                                       *)
(* ===================================================================== *)

Definition is_output (e : child_event) : bool :=
  match e with
  | StdoutData _ | StderrData _ => true
  | _ => false
  end.

Definition is_close (e : audio_event) : bool :=
  match e with
  | FromChild (Close _) => true
  | _ => false
  end.

(** Everything the child wrote to its standard output, in order. *)
Fixpoint stdout_of (events : list child_event) : jsstring :=
  match events with
  | [] => []
  | StdoutData chunk :: rest => chunk ++ stdout_of rest
  | _ :: rest => stdout_of rest
  end.

(** Everything the child wrote to its standard error, in order. *)
Fixpoint stderr_of (events : list child_event) : jsstring :=
  match events with
  | [] => []
  | StderrData chunk :: rest => chunk ++ stderr_of rest
  | _ :: rest => stderr_of rest
  end.

(** The first ['error'] event of a trace, if there is one. *)
Fixpoint first_error (events : list audio_event) : option error :=
  match events with
  | [] => None
  | FromChild (ErrorEvent err) :: _ => Some err
  | _ :: rest => first_error rest
  end.


(** The responses of the close listener. *)
Definition failure_response (label : string) (code : option Z) (stderr : jsstring)
  : Response :=
  mkResponse 500
    (JObj [ (lit "error", JStr (lit label));
            (lit "code", code_value code);
            (lit "stderr", JStr (trim stderr)) ]).

Definition success_response (key : string) (stdout : jsstring) : Response :=
  mkResponse 200 (JObj [ (lit key, JStr (trim stdout)) ]).

(* ===================================================================== *)
(** ** Predicates and sample data used in the statements                 *)
(* ===================================================================== *)


(** At most one response is out, and none before the headers are sent. *)
Definition answered_once (st : request) : Prop :=
  (length (responses (effects st)) <= 1)%nat /\
  (headersSent st = false -> responses (effects st) = []).

(** Every fetched record has an entry under its lower-cased name that
    holds its own stock (or 0). *)
Definition every_record_has_its_entry (toLowerCase : jsstring -> jsstring)
    (docs : list Ingredient) : Prop :=
  forall item, item ∈ docs ->
    exists inventory : gmap jsstring Z,
      fst (fetchInventoryFromDB toLowerCase (Resolved docs) incoming) = Done inventory /\
      inventory !! toLowerCase (name item)
        = Some (stock_or_zero (currentStock item)).

Definition sample_flour : Ingredient := mkIngredient (lit "Flour") (Quantity 5).
Definition sample_sugar : Ingredient := mkIngredient (lit "Sugar") StockNull.

Definition flour_and_sugar : list Ingredient := [sample_flour; sample_sugar].

Definition flour_twice : list Ingredient :=
  [ mkIngredient (lit "Flour") (Quantity 5);
    mkIngredient (lit "flour") (Quantity 7) ].

Definition proto_item : list Ingredient :=
  [ mkIngredient (lit "__proto__") (Quantity 3) ].

Definition sample_python : jsstring := lit "python3".
Definition sample_script : jsstring := lit "/srv/backend/assistant.py".
Definition sample_resolve (p : jsstring) : jsstring := lit "/srv/backend/" ++ p.
Definition sample_upload : uploaded_file := mkFile (lit "uploads/3f9a").

Definition sample_body : value :=
  JObj [ (lit "text", JStr (lit " how much flour? ")) ].
Definition blank_body : value := JObj [ (lit "text", JStr (lit "   ")) ].
Definition number_body : value := JObj [ (lit "text", JNum 42) ].

(** A child that answers on standard output in two chunks. *)
Definition sample_stdout : list child_event :=
  [ StdoutData (lit " 5 kg"); StdoutData (lit " of flour ") ].

(** A child that answers and also warns on standard error. *)
Definition sample_warning : list child_event :=
  [ StdoutData (lit "5 kg"); StderrData (lit "DeprecationWarning ") ].

Definition sample_run : list child_event :=
  sample_stdout ++ [Close (Some 0%Z)].

Definition deletion_fails : list audio_event :=
  [ FromChild (StdoutData (lit "ok")); FromChild (Close (Some 0%Z));
    UnlinkCallback (Some (Error (lit "EPERM: operation not permitted"))) ].


(** An error event followed by a close event. *)
Definition error_then_close : list child_event :=
  [ ErrorEvent (Error (lit "spawn python3 ENOENT")); Close (Some (-2)%Z) ].

(* ===================================================================== *)
(** ** Further vocabulary for the properties of the routes               *)
(* ===================================================================== *)

(** [segments.join("/")], a stand-in for [path.join] in examples. *)
Fixpoint slash_join (segments : list jsstring) : jsstring :=
  match segments with
  | [] => []
  | [segment] => segment
  | segment :: rest => segment ++ lit "/" ++ slash_join rest
  end.

(** Events of the audio route that answer nothing: output of the child
    and callbacks of [fs.unlink]. *)
Definition is_quiet (e : audio_event) : bool :=
  match e with
  | FromChild (ErrorEvent _) | FromChild (Close _) => false
  | _ => true
  end.

(** How many close events a trace of the audio route holds. *)
Fixpoint closes (events : list audio_event) : nat :=
  match events with
  | [] => 0%nat
  | FromChild (Close _) :: rest => S (closes rest)
  | _ :: rest => closes rest
  end.

(** The standard-error chunks of a trace, one by one. *)
Fixpoint stderr_chunks (events : list child_event) : list jsstring :=
  match events with
  | [] => []
  | StderrData chunk :: rest => chunk :: stderr_chunks rest
  | _ :: rest => stderr_chunks rest
  end.

(** The messages of the deletions that failed, one by one. *)
Fixpoint unlink_failures (events : list audio_event) : list jsstring :=
  match events with
  | [] => []
  | UnlinkCallback (Some err) :: rest => message err :: unlink_failures rest
  | _ :: rest => unlink_failures rest
  end.

(** What was written to the console under a given label. *)
Fixpoint console_lines (label : jsstring) (log : list effect) : list jsstring :=
  match log with
  | [] => []
  | ConsoleError label' detail :: rest =>
      if decide (label' = label) then detail :: console_lines label rest
      else console_lines label rest
  | _ :: rest => console_lines label rest
  end.

(** A response body that names its failure: an object whose [error]
    property is a string. *)
Definition names_failure (r : Response) : Prop :=
  exists fields message,
    body r = JObj fields /\ field (lit "error") fields = JStr message.

(** A success body: the single property [key] holding a string. *)
Definition carries_answer (key : string) (r : Response) : Prop :=
  exists answer, body r = JObj [ (lit key, JStr answer) ].

(** The shape of every response of a route whose success key is [key]. *)
Definition well_shaped (key : string) (r : Response) : Prop :=
  (status r = 200%Z /\ carries_answer key r) \/
  ((status r = 400%Z \/ status r = 500%Z) /\ names_failure r).

(** The responses with status 500 that were sent without a call of
    [console.error] directly before them; [logged] tells whether the
    effect before the head of the log was such a call. *)
Fixpoint silent_failures (logged : bool) (log : list effect) : list Response :=
  match log with
  | [] => []
  | ConsoleError _ _ :: rest => silent_failures true rest
  | Send r :: rest =>
      (if (status r =? 500)%Z && negb logged then [r] else [])
        ++ silent_failures false rest
  | _ :: rest => silent_failures false rest
  end.

(** The invariant behind the shapes: before the headers are sent the status
    code is still 200 and nothing was sent; every response sent so far is
    well shaped and no failure went out unlogged. *)
Definition tidy (key : string) (st : request) : Prop :=
  (headersSent st = false -> statusCode st = 200%Z) /\
  Forall (well_shaped key) (responses (effects st)) /\
  (forall logged, silent_failures logged (effects st) = []).

(* ===================================================================== *)
(** ** Facts about the path resolution                                   *)
(* ===================================================================== *)

Section PythonPathFacts.
Variable os : platform.
Variable existsSync : jsstring -> bool.

Lemma first_usable_spec (paths : list jsstring) (p : jsstring) :
  first_usable os existsSync paths = Some p <->
  exists i : nat,
    paths !! i = Some p /\ usable os existsSync p = true /\
    forall (j : nat) (q : jsstring),
      (j < i)%nat -> paths !! j = Some q -> usable os existsSync q = false.
Proof.
  induction paths as [|a rest IH]; simpl.
  - split; [discriminate|]. intros (i & Hi & _). by destruct i.
  - destruct (usable os existsSync a) eqn:Ha.
    + split.
      * intros [= <-]. exists 0%nat. repeat split; auto. intros j q Hj. lia.
      * intros (i & Hi & Hp & Hfirst). destruct i as [|i]; [done|].
        specialize (Hfirst 0%nat a ltac:(lia) eq_refl). congruence.
    + rewrite IH. split.
      * intros (i & Hi & Hp & Hfirst). exists (S i). repeat split; auto.
        intros [|j] q Hj Hq; simpl in Hq; [congruence|].
        apply (Hfirst j); [lia|done].
      * intros (i & Hi & Hp & Hfirst). destruct i as [|i]; simpl in Hi.
        { congruence. }
        exists i. repeat split; auto. intros j q Hj Hq.
        apply (Hfirst (S j)); [lia|done].
Qed.

Lemma bare_name_usable : usable os existsSync (lit "python.exe") = true.
Proof.
  unfold usable. apply orb_true_iff. right. by destruct os.
Qed.

Lemma first_usable_reaches (before after : list jsstring) (p : jsstring) :
  usable os existsSync p = true ->
  is_Some (first_usable os existsSync (before ++ p :: after)).
Proof.
  intros Hp. induction before as [|a before IH]; simpl.
  - rewrite Hp. eauto.
  - destruct (usable os existsSync a); eauto.
Qed.
End PythonPathFacts.

(* ===================================================================== *)
(** ** Facts about the inventory                                         *)
(* ===================================================================== *)

Lemma fetchInventoryFromDB_resolved
    (toLowerCase : jsstring -> jsstring) (docs : list Ingredient) (st : request) :
  fetchInventoryFromDB toLowerCase (Resolved docs) st =
  (Done (inventory_of toLowerCase docs), snd (perform Find st)).
Proof. reflexivity. Qed.

Lemma fetchInventoryFromDB_rejected
    (toLowerCase : jsstring -> jsstring) (e : error) (st : request) :
  fetchInventoryFromDB toLowerCase (Rejected e) st = (Thrown e, snd (perform Find st)).
Proof. reflexivity. Qed.

Lemma obj_set_lookup_ne (key k : jsstring) (v : Z) (m : gmap jsstring Z) :
  key <> k -> obj_set key v m !! k = m !! k.
Proof.
  intros Hne. unfold obj_set. case_decide; [done|]. by rewrite lookup_insert_ne.
Qed.

Lemma obj_set_lookup_eq (key : jsstring) (v : Z) (m : gmap jsstring Z) :
  key <> lit "__proto__" -> obj_set key v m !! key = Some v.
Proof.
  intros Hne. unfold obj_set. case_decide; [done|]. by rewrite lookup_insert_eq.
Qed.

Lemma fold_add_item_untouched
    (toLowerCase : jsstring -> jsstring) (docs : list Ingredient)
    (m : gmap jsstring Z) (k : jsstring) :
  Forall (fun later => toLowerCase (name later) <> k) docs ->
  fold_left (add_item toLowerCase) docs m !! k = m !! k.
Proof.
  revert m. induction docs as [|d docs IH]; intros m Hall; simpl; [done|].
  inversion Hall as [|? ? Hd Hrest]; subst.
  rewrite IH by done. unfold add_item. by apply obj_set_lookup_ne.
Qed.

Lemma inventory_of_app
    (toLowerCase : jsstring -> jsstring) (before after : list Ingredient) :
  inventory_of toLowerCase (before ++ after)
  = fold_left (add_item toLowerCase) after (inventory_of toLowerCase before).
Proof. unfold inventory_of. by rewrite fold_left_app. Qed.

Lemma inventory_of_last_wins
    (toLowerCase : jsstring -> jsstring) (before after : list Ingredient)
    (item : Ingredient) :
  toLowerCase (name item) <> lit "__proto__" ->
  Forall (fun later => toLowerCase (name later) <> toLowerCase (name item)) after ->
  inventory_of toLowerCase (before ++ item :: after) !! toLowerCase (name item)
  = Some (stock_or_zero (currentStock item)).
Proof.
  intros Hproto Hafter. rewrite inventory_of_app. simpl.
  rewrite fold_add_item_untouched by done.
  unfold add_item. by apply obj_set_lookup_eq.
Qed.

Lemma fold_add_item_origin
    (toLowerCase : jsstring -> jsstring) (docs : list Ingredient)
    (m : gmap jsstring Z) (k : jsstring) (v : Z) :
  fold_left (add_item toLowerCase) docs m !! k = Some v ->
  m !! k = Some v \/
  exists item, item ∈ docs /\ k = toLowerCase (name item) /\
               v = stock_or_zero (currentStock item).
Proof.
  revert m. induction docs as [|d docs IH]; intros m H; simpl in H; [by left|].
  apply IH in H as [H|(item & Hin & Hk & Hv)].
  - unfold add_item, obj_set in H. case_decide; [by left|].
    destruct (decide (toLowerCase (name d) = k)) as [<-|Hne].
    + rewrite lookup_insert_eq in H. injection H as <-.
      right. exists d. split; [apply list_elem_of_here|done].
    + rewrite lookup_insert_ne in H by done. by left.
  - right. exists item. split; [by apply list_elem_of_further|done].
Qed.

Lemma inventory_of_origin
    (toLowerCase : jsstring -> jsstring) (docs : list Ingredient)
    (k : jsstring) (v : Z) :
  inventory_of toLowerCase docs !! k = Some v ->
  exists item, item ∈ docs /\ k = toLowerCase (name item) /\
               v = stock_or_zero (currentStock item).
Proof.
  intros H. apply fold_add_item_origin in H as [H|H]; [|done].
  by rewrite lookup_empty in H.
Qed.

Lemma inventory_of_flour_and_sugar (toLowerCase : jsstring -> jsstring) :
  toLowerCase (lit "Flour") = lit "flour" ->
  toLowerCase (lit "Sugar") = lit "sugar" ->
  inventory_of toLowerCase flour_and_sugar
  = {[ lit "flour" := 5%Z; lit "sugar" := 0%Z ]}.
Proof.
  intros Hflour Hsugar.
  unfold inventory_of, flour_and_sugar, sample_flour, sample_sugar.
  cbn [fold_left]. unfold add_item. cbn [name currentStock].
  rewrite Hflour, Hsugar.
  apply map_eq. intros k. unfold obj_set. simpl.
  repeat case_decide; try discriminate. done.
Qed.

(* ===================================================================== *)
(** ** Facts about the listeners                                         *)
(* ===================================================================== *)

Lemma responses_app (l1 l2 : list effect) :
  responses (l1 ++ l2) = responses l1 ++ responses l2.
Proof.
  induction l1 as [|e l1 IH]; simpl; [done|].
  destruct e; simpl; by rewrite ?IH.
Qed.

Lemma spawned_app (l1 l2 : list effect) :
  spawned (l1 ++ l2) = spawned l1 ++ spawned l2.
Proof.
  induction l1 as [|e l1 IH]; simpl; [done|].
  destruct e; simpl; by rewrite ?IH.
Qed.

Lemma unlinked_app (l1 l2 : list effect) :
  unlinked (l1 ++ l2) = unlinked l1 ++ unlinked l2.
Proof.
  induction l1 as [|e l1 IH]; simpl; [done|].
  destruct e; simpl; by rewrite ?IH.
Qed.

Ltac run_listener :=
  unfold emit, ask_listener, audio_listener, on_stdout, on_stderr,
    ask_on_error, ask_on_close, audio_on_error, audio_on_close,
    audio_on_unlinked, console_error, mbind, action_bind, mret, action_ret,
    throw, perform, get, res_status, res_json, append_data,
    append_errorOutput; simpl.

Ltac tidy_log :=
  simpl; rewrite ?responses_app, ?spawned_app, ?unlinked_app; simpl; rewrite ?app_nil_r.

(** Once a response is out, no listener of /ask gets another one out. *)
Lemma ask_listener_sent (e : child_event) (st : request) :
  headersSent st = true ->
  headersSent (emit (ask_listener e) st) = true /\
  responses (effects (emit (ask_listener e) st)) = responses (effects st).
Proof.
  intros H. destruct e as [c|c|err|code]; run_listener.
  - done.
  - by tidy_log.
  - rewrite H. by tidy_log.
  - destruct (code_not_zero code || _); simpl; rewrite H; by tidy_log.
Qed.

Lemma ask_events_sent (events : list child_event) (st : request) :
  headersSent st = true ->
  headersSent (ask_events events st) = true /\
  responses (effects (ask_events events st)) = responses (effects st).
Proof.
  revert st. induction events as [|e events IH]; intros st H; [done|].
  destruct (ask_listener_sent e st H) as [Hs Hr].
  destruct (IH _ Hs) as [Hs' Hr']. simpl. split; [done|]. by rewrite Hr', Hr.
Qed.

(** Output events only fill the buffers. *)
Lemma ask_events_output (chunks : list child_event) (st : request) :
  forallb is_output chunks = true ->
  statusCode (ask_events chunks st) = statusCode st /\
  headersSent (ask_events chunks st) = headersSent st /\
  data (ask_events chunks st) = data st ++ stdout_of chunks /\
  errorOutput (ask_events chunks st) = errorOutput st ++ stderr_of chunks /\
  responses (effects (ask_events chunks st)) = responses (effects st).
Proof.
  revert st. induction chunks as [|e chunks IH]; intros st Hall.
  - simpl. by rewrite !app_nil_r.
  - simpl in Hall. apply andb_true_iff in Hall as [He Hall].
    change (ask_events (e :: chunks) st)
      with (ask_events chunks (emit (ask_listener e) st)).
    destruct (IH (emit (ask_listener e) st) Hall) as (-> & -> & -> & -> & ->).
    destruct e as [c|c| |]; try discriminate;
      run_listener; tidy_log; by rewrite <- ?app_assoc.
Qed.

Lemma ask_on_close_first (code : option Z) (st : request) :
  headersSent st = false -> statusCode st = 200%Z ->
  headersSent (emit (ask_on_close code) st) = true /\
  responses (effects (emit (ask_on_close code) st)) =
    responses (effects st) ++
    [ if code_not_zero code || truthy (JStr (errorOutput st))
      then failure_response "Python process failed" code (errorOutput st)
      else success_response "reply" (data st) ].
Proof.
  intros H Hs. run_listener.
  destruct (code_not_zero code || _); simpl; rewrite H; tidy_log; [done|].
  by rewrite Hs.
Qed.

Lemma no_text_string (s : jsstring) :
  no_text (JStr s) = false <-> trim s <> [].
Proof.
  unfold no_text. simpl. rewrite orb_false_r.
  destruct s as [|c s]; simpl.
  - split; [discriminate|]. intros H. by destruct H.
  - destruct (trim (c :: s)); simpl; split; done.
Qed.

Section HandlerFacts.
Variable toLowerCase : jsstring -> jsstring.
Variables pythonPath scriptPath : jsstring.

Lemma ask_handler_spawns (body text : value) (docs : list Ingredient) :
  body <> JUndefined -> body <> JNull -> property_text body = text ->
  no_text text = false ->
  ask_handler toLowerCase pythonPath scriptPath body (Resolved docs) Child incoming =
  (Done (Some (inventory_of toLowerCase docs)),
   {| statusCode := 200; headersSent := false; data := []; errorOutput := [];
      effects := [Find; Spawn pythonPath [JStr scriptPath; text]] |}).
Proof.
  intros Hu Hn Ht Hok.
  unfold ask_handler, try_catch, mbind, action_bind.
  assert (destructure_text body incoming = (Done text, incoming)) as ->.
  { subst text. by destruct body. }
  rewrite Hok. reflexivity.
Qed.

Lemma ask_handler_rejects (body : value) (db : db_result) (sp : spawn_result) :
  body <> JUndefined -> body <> JNull ->
  no_text (property_text body) = true ->
  ask_handler toLowerCase pythonPath scriptPath body db sp incoming =
  (Done None,
   {| statusCode := 400; headersSent := true; data := []; errorOutput := [];
      effects := [Send (mkResponse 400
                   (JObj [(lit "error", JStr (lit "No text provided"))]))] |}).
Proof.
  intros Hu Hn Hno.
  unfold ask_handler, try_catch, mbind, action_bind.
  assert (destructure_text body incoming = (Done (property_text body), incoming)) as ->.
  { by destruct body. }
  rewrite Hno. reflexivity.
Qed.

End HandlerFacts.

(* ---- audio ---- *)

Lemma audio_listener_sent (filePath : jsstring) (e : audio_event) (st : request) :
  headersSent st = true ->
  headersSent (emit (audio_listener filePath e) st) = true /\
  responses (effects (emit (audio_listener filePath e) st)) = responses (effects st).
Proof.
  intros H. destruct e as [[c|c|err|code]|[err|]]; run_listener; try done.
  - by tidy_log.
  - rewrite H. by tidy_log.
  - destruct (code_not_zero code || _); simpl; rewrite H; by tidy_log.
  - by tidy_log.
Qed.

Lemma audio_events_sent (filePath : jsstring) (events : list audio_event) (st : request) :
  headersSent st = true ->
  headersSent (audio_events filePath events st) = true /\
  responses (effects (audio_events filePath events st)) = responses (effects st).
Proof.
  revert st. induction events as [|e events IH]; intros st H; [done|].
  destruct (audio_listener_sent filePath e st H) as [Hs Hr].
  destruct (IH _ Hs) as [Hs' Hr']. simpl. split; [done|]. by rewrite Hr', Hr.
Qed.

Lemma audio_events_app (filePath : jsstring) (ev1 ev2 : list audio_event) (st : request) :
  audio_events filePath (ev1 ++ ev2) st =
  audio_events filePath ev2 (audio_events filePath ev1 st).
Proof. unfold audio_events. by rewrite fold_left_app. Qed.

Lemma ask_events_app (ev1 ev2 : list child_event) (st : request) :
  ask_events (ev1 ++ ev2) st = ask_events ev2 (ask_events ev1 st).
Proof. unfold ask_events. by rewrite fold_left_app. Qed.

Lemma audio_events_output (filePath : jsstring) (chunks : list child_event) (st : request) :
  forallb is_output chunks = true ->
  statusCode (audio_events filePath (map FromChild chunks) st) = statusCode st /\
  headersSent (audio_events filePath (map FromChild chunks) st) = headersSent st /\
  data (audio_events filePath (map FromChild chunks) st) = data st ++ stdout_of chunks /\
  errorOutput (audio_events filePath (map FromChild chunks) st)
    = errorOutput st ++ stderr_of chunks /\
  responses (effects (audio_events filePath (map FromChild chunks) st))
    = responses (effects st).
Proof.
  revert st. induction chunks as [|e chunks IH]; intros st Hall.
  - simpl. by rewrite !app_nil_r.
  - simpl in Hall. apply andb_true_iff in Hall as [He Hall].
    change (audio_events filePath (map FromChild (e :: chunks)) st)
      with (audio_events filePath (map FromChild chunks)
              (emit (audio_listener filePath (FromChild e)) st)).
    destruct (IH (emit (audio_listener filePath (FromChild e)) st) Hall)
      as (-> & -> & -> & -> & ->).
    destruct e as [c|c| |]; try discriminate;
      run_listener; tidy_log; by rewrite <- ?app_assoc.
Qed.


Lemma audio_on_close_first (filePath : jsstring) (code : option Z) (st : request) :
  headersSent st = false -> statusCode st = 200%Z ->
  headersSent (emit (audio_on_close filePath code) st) = true /\
  responses (effects (emit (audio_on_close filePath code) st)) =
    responses (effects st) ++
    [ if code_not_zero code || truthy (JStr (errorOutput st))
      then failure_response "Python audio process failed" code (errorOutput st)
      else success_response "response" (data st) ].
Proof.
  intros H Hs. run_listener.
  destruct (code_not_zero code || _); simpl; rewrite H; tidy_log; [done|].
  by rewrite Hs.
Qed.

Lemma audio_on_error_first (filePath : jsstring) (err : error) (st : request) :
  headersSent st = false ->
  headersSent (emit (audio_on_error err) st) = true /\
  responses (effects (emit (audio_on_error err) st)) =
    responses (effects st) ++
    [ mkResponse 500
        (JObj [ (lit "error", JStr (lit "Failed to start Python audio process"));
                (lit "details", JStr (message err)) ]) ].
Proof. intros H. run_listener. rewrite H. by tidy_log. Qed.

(** Only the close listener deletes the upload. *)
Lemma audio_listener_keeps_file (filePath : jsstring) (e : audio_event) (st : request) :
  is_close e = false ->
  unlinked (effects (emit (audio_listener filePath e) st)) = unlinked (effects st).
Proof.
  intros H. destruct e as [[c|c|err|code]|[err|]]; try discriminate;
    run_listener; try done; try (by tidy_log).
  destruct (headersSent st); by tidy_log.
Qed.

Lemma ask_listener_spawns_nothing (e : child_event) (st : request) :
  spawned (effects (emit (ask_listener e) st)) = spawned (effects st).
Proof.
  destruct e as [c|c|err|code]; run_listener; try done; try (by tidy_log).
  - destruct (headersSent st); by tidy_log.
  - destruct (code_not_zero code || _); simpl; destruct (headersSent st); by tidy_log.
Qed.

Lemma ask_events_spawn_nothing (events : list child_event) (st : request) :
  spawned (effects (ask_events events st)) = spawned (effects st).
Proof.
  revert st. induction events as [|e events IH]; intros st; [done|].
  simpl. change (fold_left _ events ?s) with (ask_events events s).
  by rewrite IH, ask_listener_spawns_nothing.
Qed.

Lemma audio_events_keep_file (filePath : jsstring) (events : list audio_event) (st : request) :
  forallb (fun e => negb (is_close e)) events = true ->
  unlinked (effects (audio_events filePath events st)) = unlinked (effects st).
Proof.
  revert st. induction events as [|e events IH]; intros st Hall; [done|].
  simpl in Hall. apply andb_true_iff in Hall as [He Hall].
  apply negb_true_iff in He.
  simpl. change (fold_left _ events ?s) with (audio_events filePath events s).
  by rewrite IH, audio_listener_keeps_file.
Qed.

(** The first error event of a trace without close answers the request. *)
Lemma audio_events_first_error (filePath : jsstring) (events : list audio_event)
    (err : error) (st : request) :
  headersSent st = false ->
  forallb (fun e => negb (is_close e)) events = true ->
  first_error events = Some err ->
  responses (effects (audio_events filePath events st)) =
    responses (effects st) ++
    [ mkResponse 500
        (JObj [ (lit "error", JStr (lit "Failed to start Python audio process"));
                (lit "details", JStr (message err)) ]) ].
Proof.
  revert st. induction events as [|e events IH]; intros st Hs Hall Hfirst;
    [discriminate|].
  simpl in Hall. apply andb_true_iff in Hall as [He Hall].
  change (audio_events filePath (e :: events) st)
    with (audio_events filePath events (emit (audio_listener filePath e) st)).
  destruct e as [[c|c|err'|code]|oerr]; simpl in Hfirst; try discriminate.
  - rewrite IH; try done.
  - rewrite IH; try done. run_listener. by tidy_log.
  - injection Hfirst as ->.
    destruct (audio_on_error_first filePath err st Hs) as [Hsent Hresp].
    cbn [audio_listener].
    destruct (audio_events_sent filePath events _ Hsent) as [_ ->]. done.
  - rewrite IH; try done.
    + destruct oerr; run_listener; [by tidy_log|done].
    + by destruct oerr.
Qed.



Ltac once_done Hnone Hs :=
  rewrite ?Hnone, ?Hs; simpl; split; [lia | done].

Lemma ask_listener_once (e : child_event) (st : request) :
  answered_once st -> answered_once (emit (ask_listener e) st).
Proof.
  intros [Hlen Hnone]. destruct (headersSent st) eqn:Hs.
  - destruct (ask_listener_sent e st Hs) as [Hs' Hr].
    split; [by rewrite Hr|]. intros H. congruence.
  - specialize (Hnone eq_refl). unfold answered_once.
    destruct e as [c|c|err|code]; run_listener.
    + once_done Hnone Hs.
    + tidy_log. once_done Hnone Hs.
    + rewrite Hs. tidy_log. once_done Hnone Hs.
    + destruct (code_not_zero code || _); simpl; rewrite Hs; tidy_log;
        once_done Hnone Hs.
Qed.

Lemma ask_events_once (events : list child_event) (st : request) :
  answered_once st -> answered_once (ask_events events st).
Proof.
  revert st. induction events as [|e events IH]; intros st H; [done|].
  simpl. apply IH. by apply ask_listener_once.
Qed.

Lemma audio_listener_once (filePath : jsstring) (e : audio_event) (st : request) :
  answered_once st -> answered_once (emit (audio_listener filePath e) st).
Proof.
  intros [Hlen Hnone]. destruct (headersSent st) eqn:Hs.
  - destruct (audio_listener_sent filePath e st Hs) as [Hs' Hr].
    split; [by rewrite Hr|]. intros H. congruence.
  - specialize (Hnone eq_refl). unfold answered_once.
    destruct e as [[c|c|err|code]|[err|]]; run_listener.
    + once_done Hnone Hs.
    + tidy_log. once_done Hnone Hs.
    + rewrite Hs. tidy_log. once_done Hnone Hs.
    + destruct (code_not_zero code || _); simpl; rewrite Hs; tidy_log;
        once_done Hnone Hs.
    + tidy_log. once_done Hnone Hs.
    + once_done Hnone Hs.
Qed.

Lemma audio_events_once (filePath : jsstring) (events : list audio_event) (st : request) :
  answered_once st -> answered_once (audio_events filePath events st).
Proof.
  revert st. induction events as [|e events IH]; intros st H; [done|].
  simpl. apply IH. by apply audio_listener_once.
Qed.

Ltac run_handler :=
  unfold ask_handler, audio_handler, fetchInventoryFromDB, find_all, spawn,
    destructure_text, init_buffers, try_catch, console_error, mbind,
    action_bind, mret, action_ret, throw, perform, res_status, res_json;
  simpl.

Lemma ask_once
    (toLowerCase : jsstring -> jsstring) (pythonPath scriptPath : jsstring)
    (body : value) (db : db_result)
    (sp : spawn_result) (events : list child_event) :
  answered_once (ask toLowerCase pythonPath scriptPath body db sp events).
Proof.
  unfold ask.
  destruct (ask_handler toLowerCase pythonPath scriptPath body db sp incoming) as [o st] eqn:Hh.
  assert (answered_once st) as Hst.
  { revert Hh. run_handler.
    destruct body; simpl;
      try (intros [= <- <-]; split; simpl; [lia|done]);
      (destruct (no_text _); simpl;
        [ intros [= <- <-]; split; simpl; [lia|done] | ]);
      destruct db, sp; simpl; intros [= <- <-]; split; simpl; (lia || done). }
  destruct o as [[inv|]|e]; [by apply ask_events_once|done|].
  destruct Hst as [Hlen Hnone]. unfold emit, throw. simpl.
  split; tidy_log; done.
Qed.

Lemma audio_once (pythonPath scriptPath : jsstring) (path_resolve : jsstring -> jsstring)
    (req_file : option uploaded_file) (sp : spawn_result) (events : list audio_event) :
  answered_once (audio pythonPath scriptPath path_resolve req_file sp events).
Proof.
  unfold audio.
  destruct (audio_handler pythonPath scriptPath path_resolve req_file sp incoming)
    as [o st] eqn:Hh.
  assert (answered_once st) as Hst.
  { revert Hh. run_handler.
    destruct req_file, sp; simpl; intros [= <- <-]; split; simpl; (lia || done). }
  destruct o as [[fp|]|e]; [by apply audio_events_once|done|].
  destruct Hst as [Hlen Hnone]. unfold emit, throw. simpl.
  split; tidy_log; done.
Qed.

Lemma close_failed_decide (code : option Z) (stderr : jsstring) :
  code_not_zero code || truthy (JStr stderr)
  = negb (bool_decide (code = Some 0%Z /\ stderr = [])).
Proof.
  case_bool_decide as H.
  - destruct H as [-> ->]. reflexivity.
  - simpl. apply orb_true_iff.
    destruct code as [z|]; [|by left]. simpl.
    destruct (Z.eqb_spec z 0) as [->|Hz]; [|by left].
    right. destruct stderr; [|done]. by destruct H.
Qed.

Lemma audio_handler_spawns (pythonPath scriptPath : jsstring)
    (path_resolve : jsstring -> jsstring) (file : uploaded_file) :
  audio_handler pythonPath scriptPath path_resolve (Some file) Child incoming =
  (Done (Some (path_resolve (path file))),
   {| statusCode := 200; headersSent := false; data := []; errorOutput := [];
      effects := [Spawn pythonPath [JStr scriptPath; JStr (lit "--audio");
                                    JStr (path_resolve (path file))]] |}).
Proof. reflexivity. Qed.

Lemma ask_trace_response (chunks later : list child_event) (code : option Z) (st : request) :
  headersSent st = false -> statusCode st = 200%Z ->
  data st = [] -> errorOutput st = [] -> responses (effects st) = [] ->
  forallb is_output chunks = true ->
  responses (effects (ask_events (chunks ++ Close code :: later) st)) =
  [ if bool_decide (code = Some 0%Z /\ stderr_of chunks = [])
    then success_response "reply" (stdout_of chunks)
    else failure_response "Python process failed" code (stderr_of chunks) ].
Proof.
  intros Hs Hc Hd He Hr Hout.
  rewrite ask_events_app.
  destruct (ask_events_output chunks st Hout) as (Hc' & Hs' & Hd' & He' & Hr').
  rewrite Hc in Hc'. rewrite Hs in Hs'. rewrite Hd in Hd'. rewrite He in He'.
  rewrite Hr in Hr'. simpl in Hd', He'.
  change (ask_events (Close code :: later) ?s)
    with (ask_events later (emit (ask_on_close code) s)).
  destruct (ask_on_close_first code _ Hs' Hc') as [Hsent Hresp].
  destruct (ask_events_sent later _ Hsent) as [_ ->].
  rewrite Hresp, Hr', Hd', He', close_failed_decide. simpl.
  by case_bool_decide.
Qed.

Lemma audio_trace_response (filePath : jsstring) (chunks : list child_event)
    (later : list audio_event) (code : option Z) (st : request) :
  headersSent st = false -> statusCode st = 200%Z ->
  data st = [] -> errorOutput st = [] -> responses (effects st) = [] ->
  forallb is_output chunks = true ->
  responses (effects (audio_events filePath
                        (map FromChild chunks ++ FromChild (Close code) :: later) st)) =
  [ if bool_decide (code = Some 0%Z /\ stderr_of chunks = [])
    then success_response "response" (stdout_of chunks)
    else failure_response "Python audio process failed" code (stderr_of chunks) ].
Proof.
  intros Hs Hc Hd He Hr Hout.
  rewrite audio_events_app.
  destruct (audio_events_output filePath chunks st Hout) as (Hc' & Hs' & Hd' & He' & Hr').
  rewrite Hc in Hc'. rewrite Hs in Hs'. rewrite Hd in Hd'. rewrite He in He'.
  rewrite Hr in Hr'. simpl in Hd', He'.
  change (audio_events filePath (FromChild (Close code) :: later) ?s)
    with (audio_events filePath later (emit (audio_on_close filePath code) s)).
  destruct (audio_on_close_first filePath code _ Hs' Hc') as [Hsent Hresp].
  destruct (audio_events_sent filePath later _ Hsent) as [_ ->].
  rewrite Hresp, Hr', Hd', He', close_failed_decide. simpl.
  by case_bool_decide.
Qed.

Lemma property_text_string (body : value) (s : jsstring) :
  property_text body = JStr s -> body <> JUndefined /\ body <> JNull.
Proof. destruct body; simpl; try discriminate; done. Qed.

Lemma ask_rejected_effects
    (toLowerCase : jsstring -> jsstring) (pythonPath scriptPath : jsstring) (body : value)
    (db : db_result) (sp : spawn_result) (events : list child_event) :
  body <> JUndefined -> body <> JNull ->
  no_text (property_text body) = true ->
  effects (ask toLowerCase pythonPath scriptPath body db sp events)
  = [ Send (mkResponse 400 (JObj [ (lit "error", JStr (lit "No text provided")) ])) ].
Proof.
  intros Hu Hn Hno. unfold ask.
  by rewrite (ask_handler_rejects toLowerCase pythonPath scriptPath body db sp Hu Hn Hno).
Qed.

Lemma ask_handler_inventory_free
    (toLowerCase : jsstring -> jsstring) (pythonPath scriptPath : jsstring) (body : value)
    (docs1 docs2 : list Ingredient) (sp : spawn_result) :
  snd (ask_handler toLowerCase pythonPath scriptPath body (Resolved docs1) sp incoming)
  = snd (ask_handler toLowerCase pythonPath scriptPath body (Resolved docs2) sp incoming) /\
  match fst (ask_handler toLowerCase pythonPath scriptPath body (Resolved docs1) sp incoming),
        fst (ask_handler toLowerCase pythonPath scriptPath body (Resolved docs2) sp incoming) with
  | Done (Some _), Done (Some _) | Done None, Done None => True
  | Thrown e1, Thrown e2 => e1 = e2
  | _, _ => False
  end.
Proof.
  run_handler. destruct body; simpl; try done;
    destruct (no_text _); simpl; try done; destruct sp; simpl; done.
Qed.



Lemma audio_listener_quiet (filePath : jsstring) (e : audio_event) (st : request) :
  is_quiet e = true ->
  headersSent (emit (audio_listener filePath e) st) = headersSent st /\
  responses (effects (emit (audio_listener filePath e) st)) = responses (effects st).
Proof.
  destruct e as [[c|c| |]|[err|]]; try discriminate; intros _; run_listener;
    by tidy_log.
Qed.

Lemma audio_listener_unlinks (filePath : jsstring) (e : audio_event) (st : request) :
  unlinked (effects (emit (audio_listener filePath e) st))
  = unlinked (effects st) ++ (if is_close e then [filePath] else []).
Proof.
  destruct (is_close e) eqn:He.
  - destruct e as [[c|c|err|code]|o]; try discriminate. run_listener.
    destruct (code_not_zero code || _); simpl; destruct (headersSent st); by tidy_log.
  - rewrite audio_listener_keeps_file by done. by rewrite app_nil_r.
Qed.

Lemma audio_events_unlinks (filePath : jsstring) (events : list audio_event)
    (st : request) :
  unlinked (effects (audio_events filePath events st))
  = unlinked (effects st) ++ replicate (closes events) filePath.
Proof.
  revert st. induction events as [|e events IH]; intros st.
  - simpl. by rewrite app_nil_r.
  - change (audio_events filePath (e :: events) st)
      with (audio_events filePath events (emit (audio_listener filePath e) st)).
    rewrite IH, audio_listener_unlinks, <- app_assoc. f_equal.
    by destruct e as [[c|c|err|code]|o].
Qed.




(** When an error event is followed by a close event, the close listener
    calls [res.json] although the error listener has answered already: the
    call throws, nobody catches it, and the client keeps the first
    answer. *)
Example ask_error_then_close :
  responses (effects (ask latin1_lower sample_python sample_script sample_body
                        (Resolved flour_and_sugar) Child error_then_close))
  = [ mkResponse 500
        (JObj [ (lit "error", JStr (lit "Failed to start Python process"));
                (lit "details", JStr (lit "spawn python3 ENOENT")) ]) ] /\
  last (effects (ask latin1_lower sample_python sample_script sample_body
                   (Resolved flour_and_sugar) Child error_then_close))
  = Some (Uncaught ERR_HTTP_HEADERS_SENT).
Proof. split; reflexivity. Qed.

(** In /audio the same trace does delete the upload: the deletion only
    depends on the close event being delivered. *)
Example audio_error_then_close :
  unlinked (effects (audio sample_python sample_script sample_resolve
                       (Some sample_upload) Child (map FromChild error_then_close)))
  = [ sample_resolve (path sample_upload) ].
Proof. reflexivity. Qed.

(** A body that was never parsed makes the destructuring throw, which the
    handler turns into a 500. *)
Example ask_without_body :
  map status (responses (effects (ask latin1_lower sample_python sample_script JUndefined
                                    (Resolved flour_and_sugar) Child [])))
  = [ 500%Z ].
Proof. reflexivity. Qed.

(* ===================================================================== *)
(** ** The specification, claim by claim                                 *)
(* ===================================================================== *)

(** C1.  A request to /ask whose [text] is a string that is not empty
    after trimming, whose child process writes nothing to standard error
    and closes with exit code 0, is answered with status 200 and the body
    [{ reply: <trimmed accumulated stdout> }]; nothing that happens after
    the close changes this. *)
Theorem ask_success_reply
    (toLowerCase : jsstring -> jsstring)
    (pythonPath scriptPath : jsstring) (body : value) (s : jsstring)
    (docs : list Ingredient) (chunks later : list child_event) :
  property_text body = JStr s ->
  trim s <> [] ->
  forallb is_output chunks = true ->
  stderr_of chunks = [] ->
  responses (effects (ask toLowerCase pythonPath scriptPath body (Resolved docs) Child
                        (chunks ++ Close (Some 0%Z) :: later)))
  = [ mkResponse 200 (JObj [ (lit "reply", JStr (trim (stdout_of chunks))) ]) ].
Proof.
  intros Htext Htrim Hout Herr.
  destruct (property_text_string body s Htext) as [Hu Hn].
  unfold ask.
  rewrite (ask_handler_spawns toLowerCase pythonPath scriptPath body (JStr s) docs Hu Hn Htext)
    by by apply no_text_string.
  rewrite ask_trace_response by done.
  by rewrite bool_decide_eq_true_2.
Qed.

Lemma ask_success_reply_witness :
  property_text sample_body = JStr (lit " how much flour? ") /\
  trim (lit " how much flour? ") <> [] /\
  forallb is_output sample_stdout = true /\
  stderr_of sample_stdout = [] /\
  responses (effects (ask latin1_lower sample_python sample_script sample_body
                        (Resolved flour_and_sugar) Child
                        (sample_stdout ++ Close (Some 0%Z) :: [])))
  = [ mkResponse 200 (JObj [ (lit "reply", JStr (trim (stdout_of sample_stdout))) ]) ].
Proof.
  split; [reflexivity|]. split; [vm_compute; discriminate|].
  split; [reflexivity|]. split; [reflexivity|].
  apply (ask_success_reply latin1_lower sample_python sample_script sample_body
           (lit " how much flour? ") flour_and_sugar sample_stdout []);
    try reflexivity.
  vm_compute; discriminate.
Defined.

(** C2.  A request to /ask whose [text] is missing, empty or made of white
    space only is answered with status 400 and an [error] field, and
    nothing else is done for it: the inventory is not queried and no
    process is spawned. *)
Theorem ask_rejects_blank_text
    (toLowerCase : jsstring -> jsstring)
    (pythonPath scriptPath : jsstring) (body : value)
    (db : db_result) (sp : spawn_result) (events : list child_event) :
  body <> JUndefined -> body <> JNull ->
  (property_text body = JUndefined \/
   exists s, property_text body = JStr s /\ trim s = []) ->
  effects (ask toLowerCase pythonPath scriptPath body db sp events)
  = [ Send (mkResponse 400 (JObj [ (lit "error", JStr (lit "No text provided")) ])) ] /\
  responses (effects (ask toLowerCase pythonPath scriptPath body db sp events))
  = [ mkResponse 400 (JObj [ (lit "error", JStr (lit "No text provided")) ]) ] /\
  queries (effects (ask toLowerCase pythonPath scriptPath body db sp events)) = 0%nat /\
  spawned (effects (ask toLowerCase pythonPath scriptPath body db sp events)) = [].
Proof.
  intros Hu Hn Hblank.
  rewrite ask_rejected_effects; [done|done|done|].
  destruct Hblank as [->|(s & -> & Hs)]; [done|].
  unfold no_text. simpl. rewrite Hs. simpl. by rewrite orb_true_r.
Qed.

Lemma ask_rejects_blank_text_witness :
  blank_body <> JUndefined /\ blank_body <> JNull /\
  (property_text blank_body = JUndefined \/
   exists s, property_text blank_body = JStr s /\ trim s = []) /\
  effects (ask latin1_lower sample_python sample_script blank_body
             (Resolved flour_and_sugar) Child sample_stdout)
  = [ Send (mkResponse 400 (JObj [ (lit "error", JStr (lit "No text provided")) ])) ] /\
  responses (effects (ask latin1_lower sample_python sample_script blank_body
                        (Resolved flour_and_sugar) Child sample_stdout))
  = [ mkResponse 400 (JObj [ (lit "error", JStr (lit "No text provided")) ]) ] /\
  queries (effects (ask latin1_lower sample_python sample_script blank_body
                      (Resolved flour_and_sugar) Child sample_stdout)) = 0%nat /\
  spawned (effects (ask latin1_lower sample_python sample_script blank_body
                      (Resolved flour_and_sugar) Child sample_stdout)) = [].
Proof.
  assert (Hblank : property_text blank_body = JUndefined \/
                   exists s, property_text blank_body = JStr s /\ trim s = []).
  { right. exists (lit "   "). split; reflexivity. }
  split; [discriminate|]. split; [discriminate|]. split; [exact Hblank|].
  apply (ask_rejects_blank_text latin1_lower sample_python sample_script blank_body
           (Resolved flour_and_sugar) Child sample_stdout);
    [discriminate | discriminate | exact Hblank].
Defined.

(** C3.  In both routes, when the child has only produced output and then
    closes, the response is decided by the exit code and the captured
    standard error alone: the success response (status 200) is sent only
    when the code is 0 and standard error is empty; in every other case
    (a non-zero or null code, or any standard-error text even with code
    0) the response has status 500 and carries that exit code and the
    trimmed standard-error text. *)
Theorem close_decides_response
    (toLowerCase : jsstring -> jsstring)
    (pythonPath scriptPath : jsstring) (path_resolve : jsstring -> jsstring)
    (body : value) (docs : list Ingredient) (file : uploaded_file)
    (chunks : list child_event) (code : option Z)
    (later : list child_event) (later_audio : list audio_event) :
  body <> JUndefined -> body <> JNull ->
  no_text (property_text body) = false ->
  forallb is_output chunks = true ->
  responses (effects (ask toLowerCase pythonPath scriptPath body (Resolved docs) Child
                        (chunks ++ Close code :: later)))
  = [ if bool_decide (code = Some 0%Z /\ stderr_of chunks = [])
      then mkResponse 200 (JObj [ (lit "reply", JStr (trim (stdout_of chunks))) ])
      else mkResponse 500
             (JObj [ (lit "error", JStr (lit "Python process failed"));
                     (lit "code", code_value code);
                     (lit "stderr", JStr (trim (stderr_of chunks))) ]) ]
  /\
  responses (effects (audio pythonPath scriptPath path_resolve (Some file) Child
                        (map FromChild chunks ++ FromChild (Close code) :: later_audio)))
  = [ if bool_decide (code = Some 0%Z /\ stderr_of chunks = [])
      then mkResponse 200 (JObj [ (lit "response", JStr (trim (stdout_of chunks))) ])
      else mkResponse 500
             (JObj [ (lit "error", JStr (lit "Python audio process failed"));
                     (lit "code", code_value code);
                     (lit "stderr", JStr (trim (stderr_of chunks))) ]) ].
Proof.
  intros Hu Hn Hok Hout. split.
  - unfold ask.
    rewrite (ask_handler_spawns toLowerCase pythonPath scriptPath body _ docs Hu Hn eq_refl Hok).
    by rewrite ask_trace_response.
  - unfold audio. rewrite audio_handler_spawns.
    by rewrite audio_trace_response.
Qed.

Lemma close_decides_response_witness :
  sample_body <> JUndefined /\ sample_body <> JNull /\
  no_text (property_text sample_body) = false /\
  forallb is_output sample_warning = true /\
  responses (effects (ask latin1_lower sample_python sample_script sample_body
                        (Resolved flour_and_sugar) Child
                        (sample_warning ++ Close (Some 0%Z) :: [])))
  = [ mkResponse 500
        (JObj [ (lit "error", JStr (lit "Python process failed"));
                (lit "code", JNum 0);
                (lit "stderr", JStr (lit "DeprecationWarning")) ]) ] /\
  responses (effects (audio sample_python sample_script sample_resolve
                        (Some sample_upload) Child
                        (map FromChild sample_warning
                           ++ FromChild (Close (Some 0%Z)) :: [])))
  = [ mkResponse 500
        (JObj [ (lit "error", JStr (lit "Python audio process failed"));
                (lit "code", JNum 0);
                (lit "stderr", JStr (lit "DeprecationWarning")) ]) ].
Proof.
  split; [discriminate|]. split; [discriminate|].
  split; [reflexivity|]. split; [reflexivity|].
  apply (close_decides_response latin1_lower sample_python sample_script sample_resolve
           sample_body flour_and_sugar sample_upload sample_warning (Some 0%Z) [] []);
    [discriminate | discriminate | reflexivity | reflexivity].
Defined.

(** C4, as the code has it.  Whatever function the runtime's
    [toLowerCase] is, [fetchInventoryFromDB] gives every fetched record
    whose lower-cased name is not shared by a later record, and is not
    ["__proto__"], an entry keyed by that lower-cased name whose value is
    the record's [currentStock], or 0 when that is [null] or [undefined];
    every entry of the map comes from a record in this way; and, [Flour]
    and [Sugar] being lower-cased to [flour] and [sugar], the records
    [{name:"Flour", currentStock:5}, {name:"Sugar", currentStock:null}]
    give the map [{flour: 5, sugar: 0}]. *)
Theorem fetchInventoryFromDB_entries
    (toLowerCase : jsstring -> jsstring)
    (before after : list Ingredient) (item : Ingredient) (st : request) :
  toLowerCase (lit "Flour") = lit "flour" ->
  toLowerCase (lit "Sugar") = lit "sugar" ->
  toLowerCase (name item) <> lit "__proto__" ->
  Forall (fun later => toLowerCase (name later) <> toLowerCase (name item)) after ->
  (exists inventory : gmap jsstring Z,
     fst (fetchInventoryFromDB toLowerCase (Resolved (before ++ item :: after)) st)
       = Done inventory /\
     inventory !! toLowerCase (name item)
       = Some (stock_or_zero (currentStock item)) /\
     forall (k : jsstring) (v : Z),
       inventory !! k = Some v ->
       exists record, record ∈ before ++ item :: after /\
                      k = toLowerCase (name record) /\
                      v = stock_or_zero (currentStock record)) /\
  fst (fetchInventoryFromDB toLowerCase (Resolved flour_and_sugar) st)
    = Done {[ lit "flour" := 5%Z; lit "sugar" := 0%Z ]}.
Proof.
  intros Hflour Hsugar Hproto Hlater. split.
  - exists (inventory_of toLowerCase (before ++ item :: after)).
    rewrite fetchInventoryFromDB_resolved. split; [done|]. split.
    + by apply inventory_of_last_wins.
    + apply inventory_of_origin.
  - rewrite fetchInventoryFromDB_resolved. simpl.
    by rewrite inventory_of_flour_and_sugar.
Qed.

Lemma fetchInventoryFromDB_entries_witness :
  latin1_lower (lit "Flour") = lit "flour" /\
  latin1_lower (lit "Sugar") = lit "sugar" /\
  latin1_lower (name sample_flour) <> lit "__proto__" /\
  Forall (fun later => latin1_lower (name later) <> latin1_lower (name sample_flour))
         [sample_sugar] /\
  (exists inventory : gmap jsstring Z,
     fst (fetchInventoryFromDB latin1_lower
            (Resolved ([] ++ sample_flour :: [sample_sugar])) incoming)
       = Done inventory /\
     inventory !! latin1_lower (name sample_flour)
       = Some (stock_or_zero (currentStock sample_flour)) /\
     forall (k : jsstring) (v : Z),
       inventory !! k = Some v ->
       exists record, record ∈ [] ++ sample_flour :: [sample_sugar] /\
                      k = latin1_lower (name record) /\
                      v = stock_or_zero (currentStock record)) /\
  fst (fetchInventoryFromDB latin1_lower (Resolved flour_and_sugar) incoming)
    = Done {[ lit "flour" := 5%Z; lit "sugar" := 0%Z ]}.
Proof.
  assert (H1 : latin1_lower (name sample_flour) <> lit "__proto__")
    by (vm_compute; discriminate).
  assert (H2 : Forall (fun later => latin1_lower (name later)
                                    <> latin1_lower (name sample_flour))
                      [sample_sugar]).
  { constructor; [vm_compute; discriminate | constructor]. }
  split; [reflexivity|]. split; [reflexivity|].
  split; [exact H1|]. split; [exact H2|].
  exact (fetchInventoryFromDB_entries latin1_lower [] [sample_sugar] sample_flour
           incoming eq_refl eq_refl H1 H2).
Defined.

(** C4 as stated fails, on names for which [latin1_lower] is the runtime's
    [toLowerCase]: with two records whose names differ only in case the
    later one overwrites the entry of the earlier one, and a record named
    ["__proto__"] gets no entry at all. *)
Lemma fetchInventoryFromDB_entries_counterexample :
  ~ every_record_has_its_entry latin1_lower flour_twice /\
  ~ every_record_has_its_entry latin1_lower proto_item.
Proof.
  split; intros H.
  - destruct (H (mkIngredient (lit "Flour") (Quantity 5)))
      as (inventory & Hfetch & Hentry).
    { apply list_elem_of_here. }
    rewrite fetchInventoryFromDB_resolved in Hfetch. simpl in Hfetch.
    injection Hfetch as <-. vm_compute in Hentry. discriminate.
  - destruct (H (mkIngredient (lit "__proto__") (Quantity 3)))
      as (inventory & Hfetch & Hentry).
    { apply list_elem_of_here. }
    rewrite fetchInventoryFromDB_resolved in Hfetch. simpl in Hfetch.
    injection Hfetch as <-. vm_compute in Hentry. discriminate.
Qed.






(** C7.  [getPythonPath] returns from inside its loop, never through the
    fallback after it: the value is the first candidate of the ordered
    list that exists on disk or contains no path separator, and on either
    platform such a candidate is always found, the bare names at the end
    of the list containing no separator. *)
Theorem getPythonPath_first_usable
    (os : platform) (dirname : jsstring)
    (path_join : list jsstring -> jsstring) (existsSync : jsstring -> bool) :
  first_usable os existsSync (possiblePaths dirname path_join)
    = Some (getPythonPath os dirname path_join existsSync) /\
  exists i : nat,
    possiblePaths dirname path_join !! i
      = Some (getPythonPath os dirname path_join existsSync) /\
    (existsSync (getPythonPath os dirname path_join existsSync) = true \/
     includes (getPythonPath os dirname path_join existsSync) (path_sep os) = false) /\
    forall (j : nat) (q : jsstring),
      (j < i)%nat -> possiblePaths dirname path_join !! j = Some q ->
      existsSync q = false /\ includes q (path_sep os) = true.
Proof.
  assert (Hsome : is_Some (first_usable os existsSync (possiblePaths dirname path_join))).
  { apply (first_usable_reaches os existsSync
             [_; _; _; _] [lit "python3"; lit "python"] (lit "python.exe")).
    apply bare_name_usable. }
  destruct Hsome as [p Hp].
  assert (getPythonPath os dirname path_join existsSync = p) as ->.
  { unfold getPythonPath. by rewrite Hp. }
  split; [done|].
  apply first_usable_spec in Hp as (i & Hi & Hu & Hfirst).
  exists i. split; [done|]. split.
  - unfold usable in Hu. apply orb_true_iff in Hu as [?|Hu]; [by left|right].
    by apply negb_true_iff.
  - intros j q Hj Hq. specialize (Hfirst j q Hj Hq). unfold usable in Hfirst.
    apply orb_false_iff in Hfirst as [? Hn]. split; [done|].
    by apply negb_false_iff.
Qed.

(** C8.  In /ask the inventory that was fetched is not handed to the child:
    for an accepted text the only process started is
    [spawn(pythonPath, [scriptPath, text])], and two requests with the same
    body, the same behaviour of [spawn] and the same events of the child,
    but different inventories, start the same process and get the same
    responses. *)
Theorem ask_ignores_inventory
    (toLowerCase : jsstring -> jsstring)
    (pythonPath scriptPath : jsstring) (body : value)
    (docs1 docs2 : list Ingredient) (sp : spawn_result) (events : list child_event) :
  body <> JUndefined -> body <> JNull ->
  no_text (property_text body) = false ->
  spawned (effects (ask toLowerCase pythonPath scriptPath body (Resolved docs1) sp events))
  = [ (pythonPath, [JStr scriptPath; property_text body]) ] /\
  spawned (effects (ask toLowerCase pythonPath scriptPath body (Resolved docs2) sp events))
  = [ (pythonPath, [JStr scriptPath; property_text body]) ] /\
  responses (effects (ask toLowerCase pythonPath scriptPath body (Resolved docs1) sp events))
  = responses (effects (ask toLowerCase pythonPath scriptPath body (Resolved docs2) sp events)).
Proof.
  intros Hu Hn Hok.
  assert (Hspawn : forall docs,
    spawned (effects (ask toLowerCase pythonPath scriptPath body (Resolved docs) sp events))
    = [ (pythonPath, [JStr scriptPath; property_text body]) ]).
  { intros docs. unfold ask.
    destruct sp as [|e].
    - rewrite (ask_handler_spawns toLowerCase pythonPath scriptPath body _ docs Hu Hn eq_refl Hok).
      by rewrite ask_events_spawn_nothing.
    - run_handler. destruct body; try done; rewrite Hok; reflexivity. }
  split; [apply Hspawn|]. split; [apply Hspawn|].
  unfold ask.
  destruct (ask_handler_inventory_free toLowerCase pythonPath scriptPath body docs1 docs2 sp)
    as [Hst Hout].
  destruct (ask_handler toLowerCase pythonPath scriptPath body (Resolved docs1) sp incoming)
    as [o1 st1], (ask_handler toLowerCase pythonPath scriptPath body (Resolved docs2) sp incoming)
    as [o2 st2]. simpl in Hst, Hout. subst st2.
  destruct o1 as [[?|]|?], o2 as [[?|]|?]; try done. by subst.
Qed.

Lemma ask_ignores_inventory_witness :
  sample_body <> JUndefined /\ sample_body <> JNull /\
  no_text (property_text sample_body) = false /\
  spawned (effects (ask latin1_lower sample_python sample_script sample_body
                      (Resolved flour_and_sugar) Child sample_run))
  = [ (sample_python, [JStr sample_script; JStr (lit " how much flour? ")]) ] /\
  spawned (effects (ask latin1_lower sample_python sample_script sample_body
                      (Resolved flour_twice) Child sample_run))
  = [ (sample_python, [JStr sample_script; JStr (lit " how much flour? ")]) ] /\
  responses (effects (ask latin1_lower sample_python sample_script sample_body
                        (Resolved flour_and_sugar) Child sample_run))
  = responses (effects (ask latin1_lower sample_python sample_script sample_body
                          (Resolved flour_twice) Child sample_run)).
Proof.
  split; [discriminate|]. split; [discriminate|]. split; [reflexivity|].
  apply (ask_ignores_inventory latin1_lower sample_python sample_script sample_body
           flour_and_sugar flour_twice Child sample_run);
    [discriminate | discriminate | reflexivity].
Defined.

(** C9.  Whatever the request and whatever events the child emits, in any
    number and order (an error event followed by a close event included),
    at most one response leaves the server for a request to /ask and for a
    request to /audio. *)
Theorem at_most_one_response
    (toLowerCase : jsstring -> jsstring)
    (pythonPath scriptPath : jsstring) (path_resolve : jsstring -> jsstring)
    (body : value) (db : db_result) (req_file : option uploaded_file)
    (sp : spawn_result) (events : list child_event)
    (audio_trace : list audio_event) :
  (length (responses (effects
     (ask toLowerCase pythonPath scriptPath body db sp events))) <= 1)%nat /\
  (length (responses (effects
     (audio pythonPath scriptPath path_resolve req_file sp audio_trace))) <= 1)%nat.
Proof.
  split.
  - apply ask_once.
  - apply audio_once.
Qed.

(** C10.  A request to /ask whose [text] is not a string (a number, an
    array, an object, a boolean, [null]) is answered with status 400 and
    [{ error: "No text provided" }], without a query of the inventory and
    without a process. *)
Theorem ask_rejects_non_string
    (toLowerCase : jsstring -> jsstring)
    (pythonPath scriptPath : jsstring) (body : value)
    (db : db_result) (sp : spawn_result) (events : list child_event) :
  body <> JUndefined -> body <> JNull ->
  is_string (property_text body) = false ->
  effects (ask toLowerCase pythonPath scriptPath body db sp events)
  = [ Send (mkResponse 400 (JObj [ (lit "error", JStr (lit "No text provided")) ])) ] /\
  responses (effects (ask toLowerCase pythonPath scriptPath body db sp events))
  = [ mkResponse 400 (JObj [ (lit "error", JStr (lit "No text provided")) ]) ] /\
  queries (effects (ask toLowerCase pythonPath scriptPath body db sp events)) = 0%nat /\
  spawned (effects (ask toLowerCase pythonPath scriptPath body db sp events)) = [].
Proof.
  intros Hu Hn Hstr.
  rewrite ask_rejected_effects; [done|done|done|].
  unfold no_text. rewrite Hstr. simpl. by rewrite orb_true_r.
Qed.

Lemma ask_rejects_non_string_witness :
  number_body <> JUndefined /\ number_body <> JNull /\
  is_string (property_text number_body) = false /\
  effects (ask latin1_lower sample_python sample_script number_body
             (Resolved flour_and_sugar) Child sample_run)
  = [ Send (mkResponse 400 (JObj [ (lit "error", JStr (lit "No text provided")) ])) ] /\
  responses (effects (ask latin1_lower sample_python sample_script number_body
                        (Resolved flour_and_sugar) Child sample_run))
  = [ mkResponse 400 (JObj [ (lit "error", JStr (lit "No text provided")) ]) ] /\
  queries (effects (ask latin1_lower sample_python sample_script number_body
                      (Resolved flour_and_sugar) Child sample_run)) = 0%nat /\
  spawned (effects (ask latin1_lower sample_python sample_script number_body
                      (Resolved flour_and_sugar) Child sample_run)) = [].
Proof.
  split; [discriminate|]. split; [discriminate|]. split; [reflexivity|].
  apply (ask_rejects_non_string latin1_lower sample_python sample_script number_body
           (Resolved flour_and_sugar) Child sample_run);
    [discriminate | discriminate | reflexivity].
Defined.

(* ===================================================================== *)
(** * Further properties of the module                                 *)
(* ===================================================================== *)

(* ===================================================================== *)
(** ** More about the path resolution                                    *)
(* ===================================================================== *)

Section MorePythonPath.
Variable os : platform.
Variable dirname : jsstring.
Variable path_join : list jsstring -> jsstring.
Variable existsSync : jsstring -> bool.

Lemma first_usable_prefix (before after : list jsstring) (p : jsstring) :
  usable os existsSync p = true ->
  exists i : nat,
    (i <= length before)%nat /\
    (before ++ p :: after) !! i = first_usable os existsSync (before ++ p :: after).
Proof.
  intros Hp. induction before as [|a before IH]; simpl.
  - rewrite Hp. exists 0%nat. split; [lia|done].
  - destruct (usable os existsSync a).
    + exists 0%nat. split; [lia|done].
    + destruct IH as (i & Hi & Hlook). exists (S i). split; [lia|done].
Qed.

Lemma first_usable_all_unusable (before after : list jsstring) :
  Forall (fun p => usable os existsSync p = false) before ->
  first_usable os existsSync (before ++ after) = first_usable os existsSync after.
Proof.
  induction 1 as [|a before Ha _ IH]; simpl; [done|]. by rewrite Ha.
Qed.

End MorePythonPath.

Lemma first_usable_in_prefix (os : platform) (existsSync : jsstring -> bool)
    (before after : list jsstring) :
  Exists (fun p => existsSync p = true) before ->
  exists p, first_usable os existsSync (before ++ after) = Some p /\ p ∈ before.
Proof.
  induction before as [|a before IH]; intros Hex; [by inversion Hex|].
  simpl. destruct (usable os existsSync a) eqn:Ha.
  - exists a. split; [done|apply list_elem_of_here].
  - inversion Hex as [? ? Hhere|? ? Hlater]; subst.
    + unfold usable in Ha. by rewrite Hhere in Ha.
    + destruct (IH Hlater) as (p & Hp & Hin). exists p.
      split; [done|by apply list_elem_of_further].
Qed.

(** The last two candidates, [python3] and [python], are never what the
    loop returns: the result is always among the first five. *)
Theorem getPythonPath_among_first_five
    (os : platform) (dirname : jsstring)
    (path_join : list jsstring -> jsstring) (existsSync : jsstring -> bool) :
  exists i : nat,
    (i <= 4)%nat /\
    possiblePaths dirname path_join !! i
      = Some (getPythonPath os dirname path_join existsSync).
Proof.
  destruct (first_usable_prefix os existsSync
              [ path_join [dirname; lit ".."; lit ".venv"; lit "Scripts"; lit "python.exe"];
                path_join [dirname; lit ".."; lit "venv"; lit "Scripts"; lit "python.exe"];
                path_join [dirname; lit ".."; lit ".venv"; lit "bin"; lit "python"];
                path_join [dirname; lit ".."; lit "venv"; lit "bin"; lit "python"] ]
              [lit "python3"; lit "python"] (lit "python.exe")
              (bare_name_usable os existsSync)) as (i & Hi & Hlook).
  exists i. split; [exact Hi|].
  unfold getPythonPath.
  change (possiblePaths dirname path_join !! i
          = first_usable os existsSync (possiblePaths dirname path_join)) in Hlook.
  destruct (first_usable os existsSync (possiblePaths dirname path_join)) eqn:Hf;
    [done|].
  apply lookup_ge_None in Hlook. simpl in Hlook, Hi. lia.
Qed.

(** Without a virtual environment the interpreter is [python.exe] on
    every platform, POSIX included. *)
Theorem getPythonPath_without_venv
    (os : platform) (dirname : jsstring)
    (path_join : list jsstring -> jsstring) (existsSync : jsstring -> bool) :
  Forall (fun p => existsSync p = false /\ includes p (path_sep os) = true)
         (take 4 (possiblePaths dirname path_join)) ->
  getPythonPath os dirname path_join existsSync = lit "python.exe".
Proof.
  intros Hvenv. unfold getPythonPath.
  change (possiblePaths dirname path_join)
    with (take 4 (possiblePaths dirname path_join)
            ++ [lit "python.exe"; lit "python3"; lit "python"]).
  rewrite first_usable_all_unusable.
  - simpl. by rewrite bare_name_usable.
  - eapply Forall_impl; [exact Hvenv|]. intros p [He Hi]. unfold usable.
    by rewrite He, Hi.
Qed.

Lemma getPythonPath_without_venv_witness :
  Forall (fun p => (fun _ => false) p = false /\ includes p (path_sep posix) = true)
         (take 4 (possiblePaths (lit "/srv/backend/routes") slash_join)) /\
  getPythonPath posix (lit "/srv/backend/routes") slash_join (fun _ => false)
    = lit "python.exe".
Proof.
  assert (H : Forall (fun p => (fun _ : jsstring => false) p = false
                               /\ includes p (path_sep posix) = true)
                     (take 4 (possiblePaths (lit "/srv/backend/routes") slash_join))).
  { repeat constructor. }
  split; [exact H|].
  exact (getPythonPath_without_venv posix (lit "/srv/backend/routes") slash_join
           (fun _ => false) H).
Defined.

(** A virtual-environment interpreter that exists on disk is preferred to
    the system interpreters: the result is then one of the four
    virtual-environment paths. *)
Theorem getPythonPath_prefers_venv
    (os : platform) (dirname : jsstring)
    (path_join : list jsstring -> jsstring) (existsSync : jsstring -> bool) :
  Exists (fun p => existsSync p = true) (take 4 (possiblePaths dirname path_join)) ->
  getPythonPath os dirname path_join existsSync
    ∈ take 4 (possiblePaths dirname path_join).
Proof.
  intros Hex.
  destruct (first_usable_in_prefix os existsSync
              (take 4 (possiblePaths dirname path_join))
              [lit "python.exe"; lit "python3"; lit "python"] Hex) as (p & Hp & Hin).
  unfold getPythonPath.
  change (possiblePaths dirname path_join)
    with (take 4 (possiblePaths dirname path_join)
            ++ [lit "python.exe"; lit "python3"; lit "python"]).
  by rewrite Hp.
Qed.

Lemma getPythonPath_prefers_venv_witness :
  Exists (fun p => startsWith (lit "/srv/backend/routes/../venv/bin") p = true)
         (take 4 (possiblePaths (lit "/srv/backend/routes") slash_join)) /\
  getPythonPath posix (lit "/srv/backend/routes") slash_join
                (startsWith (lit "/srv/backend/routes/../venv/bin"))
    ∈ take 4 (possiblePaths (lit "/srv/backend/routes") slash_join).
Proof.
  assert (H : Exists (fun p => startsWith (lit "/srv/backend/routes/../venv/bin") p = true)
                     (take 4 (possiblePaths (lit "/srv/backend/routes") slash_join))).
  { do 3 apply Exists_cons_tl. apply Exists_cons_hd. reflexivity. }
  split; [exact H|].
  exact (getPythonPath_prefers_venv posix (lit "/srv/backend/routes") slash_join
           (startsWith (lit "/srv/backend/routes/../venv/bin")) H).
Defined.

(* ===================================================================== *)
(** ** More about the inventory                                          *)
(* ===================================================================== *)

Lemma add_item_union
    (toLowerCase : jsstring -> jsstring) (item : Ingredient)
    (m : gmap jsstring Z) :
  add_item toLowerCase m item = add_item toLowerCase ∅ item ∪ m.
Proof.
  unfold add_item, obj_set. case_decide.
  - by rewrite (left_id_L ∅ (∪)).
  - by rewrite <- insert_union_l, (left_id_L ∅ (∪)).
Qed.

Lemma fold_add_item_union
    (toLowerCase : jsstring -> jsstring) (docs : list Ingredient)
    (m : gmap jsstring Z) :
  fold_left (add_item toLowerCase) docs m = inventory_of toLowerCase docs ∪ m.
Proof.
  unfold inventory_of. revert m.
  induction docs as [|d docs IH]; intros m; simpl.
  - by rewrite (left_id_L ∅ (∪)).
  - rewrite (IH (add_item toLowerCase m d)), (IH (add_item toLowerCase ∅ d)).
    by rewrite (add_item_union toLowerCase d m), (assoc_L (∪)).
Qed.

Lemma inventory_of_no_proto
    (toLowerCase : jsstring -> jsstring) (docs : list Ingredient) :
  inventory_of toLowerCase docs !! lit "__proto__" = None.
Proof.
  unfold inventory_of.
  assert (H : forall m : gmap jsstring Z,
             m !! lit "__proto__" = None ->
             fold_left (add_item toLowerCase) docs m !! lit "__proto__" = None).
  { induction docs as [|d docs IH]; intros m Hm; simpl; [done|].
    apply IH. unfold add_item, obj_set. case_decide; [done|].
    by rewrite lookup_insert_ne. }
  apply H, lookup_empty.
Qed.

(** Fetching [earlier ++ later] gives the map of [later] laid over the map
    of [earlier]: where both have a key, the later records win.  This holds
    whatever function the runtime's [toLowerCase] is. *)
Theorem inventory_of_batches
    (toLowerCase : jsstring -> jsstring) (earlier later : list Ingredient) :
  inventory_of toLowerCase (earlier ++ later)
  = inventory_of toLowerCase later ∪ inventory_of toLowerCase earlier.
Proof.
  rewrite inventory_of_app. apply fold_add_item_union.
Qed.

(** Whatever function the runtime's [toLowerCase] is, the keys of the
    fetched map are exactly the lower-cased names of the records,
    ["__proto__"] left out: any other key, and every key of an empty
    collection, is absent. *)
Theorem inventory_of_keys
    (toLowerCase : jsstring -> jsstring) (docs : list Ingredient)
    (k : jsstring) :
  is_Some (inventory_of toLowerCase docs !! k) <->
  k <> lit "__proto__" /\ exists item, item ∈ docs /\ k = toLowerCase (name item).
Proof.
  split.
  - intros [v Hv]. split.
    + intros ->. by rewrite inventory_of_no_proto in Hv.
    + apply inventory_of_origin in Hv as (item & Hin & Hk & _). eauto.
  - intros (Hproto & item & Hin & ->).
    apply list_elem_of_split in Hin as (before & after & ->).
    rewrite inventory_of_app. simpl. rewrite fold_add_item_union.
    apply lookup_union_is_Some. right.
    exists (stock_or_zero (currentStock item)).
    unfold add_item. by apply obj_set_lookup_eq.
Qed.

(* ===================================================================== *)
(** ** More about the validation of /ask                                 *)
(* ===================================================================== *)

Lemma trimStart_nil (s : jsstring) :
  trimStart s = [] <-> forallb is_white s = true.
Proof.
  induction s as [|c s IH]; simpl; [done|].
  destruct (is_white c); simpl; [done|]. split; discriminate.
Qed.

Lemma trimStart_suffix (s : jsstring) :
  exists blanks, s = blanks ++ trimStart s /\ forallb is_white blanks = true.
Proof.
  induction s as [|c s IH]; simpl.
  - by exists [].
  - destruct (is_white c) eqn:Hc.
    + destruct IH as (blanks & Hs & Hb). exists (c :: blanks). simpl.
      rewrite Hc, Hb. split; [by f_equal|done].
    + by exists [].
Qed.

Lemma forallb_rev {A : Type} (f : A -> bool) (l : list A) :
  forallb f (rev l) = forallb f l.
Proof.
  induction l as [|a l IH]; simpl; [done|].
  rewrite forallb_app, IH. simpl. rewrite andb_true_r. apply andb_comm.
Qed.

Lemma trim_nil (s : jsstring) :
  trim s = [] <-> forallb is_white s = true.
Proof.
  unfold trim, trimEnd.
  destruct (trimStart_suffix s) as (blanks & Hs & Hb).
  split.
  - intros H. apply (f_equal (@rev N)) in H. rewrite rev_involutive in H.
    simpl in H. apply trimStart_nil in H. rewrite forallb_rev in H.
    rewrite Hs, forallb_app, Hb, H. done.
  - intros H. apply trimStart_nil in H. by rewrite H.
Qed.

Lemma forallb_false_Exists (s : jsstring) :
  forallb is_white s = false <-> Exists (fun c => is_white c = false) s.
Proof.
  induction s as [|c s IH]; simpl.
  - split; [discriminate|]. intros H. inversion H.
  - destruct (is_white c) eqn:Hc; simpl.
    + rewrite IH. split; [by apply Exists_cons_tl|].
      intros H. inversion H as [? ? Hh|? ? Ht]; subst; [congruence|done].
    + split; [|done]. intros _. by apply Exists_cons_hd.
Qed.

Lemma no_text_accepts (text : value) :
  no_text text = false <->
  exists s, text = JStr s /\ Exists (fun c => is_white c = false) s.
Proof.
  split.
  - intros H. destruct text as [| |b|z| |s|items|fields];
      try (unfold no_text in H; simpl in H; rewrite ?orb_true_r in H; discriminate).
    exists s. split; [done|]. apply forallb_false_Exists.
    apply no_text_string in H. destruct (forallb is_white s) eqn:Hw; [|done].
    by apply trim_nil in Hw.
  - intros (s & -> & Hex). apply no_text_string. intros Hnil.
    apply trim_nil in Hnil. apply forallb_false_Exists in Hex. congruence.
Qed.

(** With a parsed body and a database that answers, /ask starts a process
    exactly when [text] is a string that holds a code unit other than
    white space; what [spawn] does afterwards and what the child emits
    play no part. *)
Theorem ask_spawns_iff_text
    (toLowerCase : jsstring -> jsstring)
    (pythonPath scriptPath : jsstring) (body : value) (docs : list Ingredient)
    (sp : spawn_result) (events : list child_event) :
  body <> JUndefined -> body <> JNull ->
  (spawned (effects
     (ask toLowerCase pythonPath scriptPath body (Resolved docs) sp events)) <> [] <->
   exists s, property_text body = JStr s /\ Exists (fun c => is_white c = false) s).
Proof.
  intros Hu Hn. rewrite <- no_text_accepts.
  destruct (no_text (property_text body)) eqn:Hno.
  - rewrite ask_rejected_effects by done. simpl. split; [done|discriminate].
  - split; [done|]. intros _. unfold ask. destruct sp as [|e].
    + rewrite (ask_handler_spawns toLowerCase pythonPath scriptPath body _ docs Hu Hn eq_refl Hno).
      by rewrite ask_events_spawn_nothing.
    + run_handler. destruct body; try done; rewrite Hno; simpl; discriminate.
Qed.

Lemma ask_spawns_iff_text_witness :
  sample_body <> JUndefined /\ sample_body <> JNull /\
  (spawned (effects (ask latin1_lower sample_python sample_script sample_body
                       (Resolved flour_and_sugar) Child sample_run)) <> [] <->
   exists s, property_text sample_body = JStr s
             /\ Exists (fun c => is_white c = false) s).
Proof.
  split; [discriminate|]. split; [discriminate|].
  apply (ask_spawns_iff_text latin1_lower sample_python sample_script sample_body
           flour_and_sugar Child sample_run); discriminate.
Defined.

(* ===================================================================== *)
(** ** More about /ask                                                   *)
(* ===================================================================== *)

Lemma queries_app (l1 l2 : list effect) :
  queries (l1 ++ l2) = (queries l1 + queries l2)%nat.
Proof.
  induction l1 as [|e l1 IH]; simpl; [done|].
  destruct e; simpl; by rewrite ?IH.
Qed.

Lemma property_text_accepted (body : value) :
  no_text (property_text body) = false -> body <> JUndefined /\ body <> JNull.
Proof. destruct body; try done; simpl; discriminate. Qed.

(** When the inventory query fails, /ask answers 500 "Assistant failed"
    with the message of the failure and starts no process, although the
    inventory is not needed to start one. *)
Theorem ask_database_failure
    (toLowerCase : jsstring -> jsstring)
    (pythonPath scriptPath : jsstring) (body : value) (e : error)
    (sp : spawn_result) (events : list child_event) :
  no_text (property_text body) = false ->
  responses (effects (ask toLowerCase pythonPath scriptPath body (Rejected e) sp events))
  = [ mkResponse 500
        (JObj [ (lit "error", JStr (lit "Assistant failed"));
                (lit "details", JStr (message e)) ]) ] /\
  queries (effects (ask toLowerCase pythonPath scriptPath body (Rejected e) sp events)) = 1%nat /\
  spawned (effects (ask toLowerCase pythonPath scriptPath body (Rejected e) sp events)) = [].
Proof.
  intros Hok. destruct (property_text_accepted body Hok) as [Hu Hn].
  unfold ask. run_handler.
  destruct body; try done; rewrite Hok; simpl; done.
Qed.

Lemma ask_database_failure_witness :
  no_text (property_text sample_body) = false /\
  responses (effects (ask latin1_lower sample_python sample_script sample_body
                        (Rejected (Error (lit "connection refused"))) Child sample_run))
  = [ mkResponse 500
        (JObj [ (lit "error", JStr (lit "Assistant failed"));
                (lit "details", JStr (lit "connection refused")) ]) ] /\
  queries (effects (ask latin1_lower sample_python sample_script sample_body
                      (Rejected (Error (lit "connection refused"))) Child sample_run))
  = 1%nat /\
  spawned (effects (ask latin1_lower sample_python sample_script sample_body
                      (Rejected (Error (lit "connection refused"))) Child sample_run))
  = [].
Proof.
  split; [reflexivity|].
  exact (ask_database_failure latin1_lower sample_python sample_script sample_body
           (Error (lit "connection refused")) Child sample_run eq_refl).
Defined.

(** When [spawn] itself throws, /ask answers 500 "Assistant failed" with
    the message of the exception; no listener is attached, so nothing the
    child object might emit changes the answer. *)
Theorem ask_spawn_throws
    (toLowerCase : jsstring -> jsstring)
    (pythonPath scriptPath : jsstring) (body : value) (docs : list Ingredient)
    (e : error) (events : list child_event) :
  no_text (property_text body) = false ->
  effects (ask toLowerCase pythonPath scriptPath body (Resolved docs) (SpawnThrows e) events)
  = [ Find;
      Spawn pythonPath [JStr scriptPath; property_text body];
      ConsoleError (lit "Assistant error:") (message e);
      Send (mkResponse 500
              (JObj [ (lit "error", JStr (lit "Assistant failed"));
                      (lit "details", JStr (message e)) ])) ].
Proof.
  intros Hok. destruct (property_text_accepted body Hok) as [Hu Hn].
  unfold ask. run_handler.
  destruct body; try done; rewrite Hok; simpl; done.
Qed.

Lemma ask_spawn_throws_witness :
  no_text (property_text sample_body) = false /\
  effects (ask latin1_lower sample_python sample_script sample_body (Resolved flour_and_sugar)
             (SpawnThrows (Error (lit "spawn EACCES"))) sample_run)
  = [ Find;
      Spawn sample_python [JStr sample_script; property_text sample_body];
      ConsoleError (lit "Assistant error:") (lit "spawn EACCES");
      Send (mkResponse 500
              (JObj [ (lit "error", JStr (lit "Assistant failed"));
                      (lit "details", JStr (lit "spawn EACCES")) ])) ].
Proof.
  split; [reflexivity|].
  exact (ask_spawn_throws latin1_lower sample_python sample_script sample_body flour_and_sugar
           (Error (lit "spawn EACCES")) sample_run eq_refl).
Defined.

(** A request whose body was never parsed ([req.body] is [undefined] or
    [null]) is not answered 400 but 500 "Assistant failed": the
    destructuring throws before the validation runs.  Nothing is queried
    and nothing is spawned. *)
Theorem ask_unparsed_body
    (toLowerCase : jsstring -> jsstring)
    (pythonPath scriptPath : jsstring) (body : value) (db : db_result)
    (sp : spawn_result) (events : list child_event) :
  body = JUndefined \/ body = JNull ->
  (exists details,
     responses (effects (ask toLowerCase pythonPath scriptPath body db sp events))
     = [ mkResponse 500
           (JObj [ (lit "error", JStr (lit "Assistant failed"));
                   (lit "details", JStr details) ]) ]) /\
  queries (effects (ask toLowerCase pythonPath scriptPath body db sp events)) = 0%nat /\
  spawned (effects (ask toLowerCase pythonPath scriptPath body db sp events)) = [].
Proof.
  intros [-> | ->]; (split; [eexists; reflexivity | split; reflexivity]).
Qed.

Lemma ask_unparsed_body_witness :
  (JUndefined = JUndefined \/ JUndefined = JNull) /\
  queries (effects (ask latin1_lower sample_python sample_script JUndefined
                      (Resolved flour_and_sugar) Child sample_run)) = 0%nat /\
  spawned (effects (ask latin1_lower sample_python sample_script JUndefined
                      (Resolved flour_and_sugar) Child sample_run)) = [].
Proof.
  split; [by left|].
  apply (ask_unparsed_body latin1_lower sample_python sample_script JUndefined
           (Resolved flour_and_sugar) Child sample_run). by left.
Defined.

Lemma ask_on_error_first (err : error) (st : request) :
  headersSent st = false ->
  headersSent (emit (ask_on_error err) st) = true /\
  responses (effects (emit (ask_on_error err) st)) =
    responses (effects st) ++
    [ mkResponse 500
        (JObj [ (lit "error", JStr (lit "Failed to start Python process"));
                (lit "details", JStr (message err)) ]) ].
Proof. intros H. run_listener. rewrite H. by tidy_log. Qed.

(** In /ask, when the first event of the child that is not output is an
    error event, the request is answered 500 "Failed to start Python
    process" with the message of that error, whatever is emitted later. *)
Theorem ask_error_event
    (toLowerCase : jsstring -> jsstring)
    (pythonPath scriptPath : jsstring) (body : value) (docs : list Ingredient)
    (chunks later : list child_event) (err : error) :
  no_text (property_text body) = false ->
  forallb is_output chunks = true ->
  responses (effects (ask toLowerCase pythonPath scriptPath body (Resolved docs) Child
                        (chunks ++ ErrorEvent err :: later)))
  = [ mkResponse 500
        (JObj [ (lit "error", JStr (lit "Failed to start Python process"));
                (lit "details", JStr (message err)) ]) ].
Proof.
  intros Hok Hout. destruct (property_text_accepted body Hok) as [Hu Hn].
  unfold ask.
  rewrite (ask_handler_spawns toLowerCase pythonPath scriptPath body _ docs Hu Hn eq_refl Hok).
  rewrite ask_events_app.
  match goal with
  | |- context [ask_events chunks ?s] =>
      destruct (ask_events_output chunks s Hout) as (_ & Hs & _ & _ & Hr)
  end.
  simpl in Hs, Hr.
  change (ask_events (ErrorEvent err :: later) ?s)
    with (ask_events later (emit (ask_on_error err) s)).
  match goal with
  | |- context [emit (ask_on_error err) ?s] =>
      destruct (ask_on_error_first err s Hs) as [Hsent Hresp]
  end.
  destruct (ask_events_sent later _ Hsent) as [_ ->].
  by rewrite Hresp, Hr.
Qed.

Lemma ask_error_event_witness :
  no_text (property_text sample_body) = false /\
  forallb is_output sample_stdout = true /\
  responses (effects (ask latin1_lower sample_python sample_script sample_body
                        (Resolved flour_and_sugar) Child
                        (sample_stdout
                           ++ ErrorEvent (Error (lit "kill EPERM")) :: [Close None])))
  = [ mkResponse 500
        (JObj [ (lit "error", JStr (lit "Failed to start Python process"));
                (lit "details", JStr (lit "kill EPERM")) ]) ].
Proof.
  split; [reflexivity|]. split; [reflexivity|].
  exact (ask_error_event latin1_lower sample_python sample_script sample_body flour_and_sugar
           sample_stdout [Close None] (Error (lit "kill EPERM")) eq_refl eq_refl).
Defined.

(* ===================================================================== *)
(** ** When a request is answered                                        *)
(* ===================================================================== *)

Lemma ask_listener_quiet (e : child_event) (st : request) :
  is_output e = true ->
  headersSent (emit (ask_listener e) st) = headersSent st /\
  responses (effects (emit (ask_listener e) st)) = responses (effects st).
Proof.
  destruct e as [c|c| |]; try discriminate; intros _; run_listener; by tidy_log.
Qed.

Lemma ask_listener_answers (e : child_event) (st : request) :
  is_output e = false -> headersSent st = false ->
  headersSent (emit (ask_listener e) st) = true /\
  length (responses (effects (emit (ask_listener e) st)))
  = S (length (responses (effects st))).
Proof.
  destruct e as [c|c|err|code]; try discriminate; intros _ Hs; run_listener.
  - rewrite Hs. tidy_log. rewrite length_app. simpl. split; [done|lia].
  - destruct (code_not_zero code || _); simpl; rewrite Hs; tidy_log;
      rewrite length_app; simpl; (split; [done|lia]).
Qed.

Lemma ask_events_answered (events : list child_event) (st : request) :
  headersSent st = false -> responses (effects st) = [] ->
  length (responses (effects (ask_events events st)))
  = if forallb is_output events then 0%nat else 1%nat.
Proof.
  revert st. induction events as [|e events IH]; intros st Hs Hr.
  - simpl. by rewrite Hr.
  - change (ask_events (e :: events) st)
      with (ask_events events (emit (ask_listener e) st)).
    simpl. destruct (is_output e) eqn:He; simpl.
    + destruct (ask_listener_quiet e st He) as [Hs' Hr'].
      apply IH; congruence.
    + destruct (ask_listener_answers e st He Hs) as [Hs' Hlen].
      destruct (ask_events_sent events _ Hs') as [_ ->].
      rewrite Hlen, Hr. done.
Qed.

Lemma audio_listener_answers (filePath : jsstring) (e : audio_event) (st : request) :
  is_quiet e = false -> headersSent st = false ->
  headersSent (emit (audio_listener filePath e) st) = true /\
  length (responses (effects (emit (audio_listener filePath e) st)))
  = S (length (responses (effects st))).
Proof.
  destruct e as [[c|c|err|code]|[err|]]; try discriminate; intros _ Hs; run_listener.
  - rewrite Hs. tidy_log. rewrite length_app. simpl. split; [done|lia].
  - destruct (code_not_zero code || _); simpl; rewrite Hs; tidy_log;
      rewrite length_app; simpl; (split; [done|lia]).
Qed.

Lemma audio_events_answered (filePath : jsstring) (events : list audio_event)
    (st : request) :
  headersSent st = false -> responses (effects st) = [] ->
  length (responses (effects (audio_events filePath events st)))
  = if forallb is_quiet events then 0%nat else 1%nat.
Proof.
  revert st. induction events as [|e events IH]; intros st Hs Hr.
  - simpl. by rewrite Hr.
  - change (audio_events filePath (e :: events) st)
      with (audio_events filePath events (emit (audio_listener filePath e) st)).
    simpl. destruct (is_quiet e) eqn:He; simpl.
    + destruct (audio_listener_quiet filePath e st He) as [Hs' Hr'].
      apply IH; congruence.
    + destruct (audio_listener_answers filePath e st He Hs) as [Hs' Hlen].
      destruct (audio_events_sent filePath events _ Hs') as [_ ->].
      rewrite Hlen, Hr. done.
Qed.

(** Once a child is running, a request is answered exactly when the child
    emits an error or a close event: as long as there is only output (and,
    in /audio, deletion callbacks) no response is sent, there being no
    timeout, and from the first error or close on there is exactly one. *)
Theorem answered_iff_error_or_close
    (toLowerCase : jsstring -> jsstring)
    (pythonPath scriptPath : jsstring) (path_resolve : jsstring -> jsstring)
    (body : value) (docs : list Ingredient) (file : uploaded_file)
    (events : list child_event) (audio_trace : list audio_event) :
  no_text (property_text body) = false ->
  length (responses (effects
    (ask toLowerCase pythonPath scriptPath body (Resolved docs) Child events)))
  = (if forallb is_output events then 0%nat else 1%nat) /\
  length (responses (effects
    (audio pythonPath scriptPath path_resolve (Some file) Child audio_trace)))
  = (if forallb is_quiet audio_trace then 0%nat else 1%nat).
Proof.
  intros Hok. destruct (property_text_accepted body Hok) as [Hu Hn]. split.
  - unfold ask.
    rewrite (ask_handler_spawns toLowerCase pythonPath scriptPath body _ docs Hu Hn eq_refl Hok).
    by apply ask_events_answered.
  - unfold audio. rewrite audio_handler_spawns. by apply audio_events_answered.
Qed.

Lemma answered_iff_error_or_close_witness :
  no_text (property_text sample_body) = false /\
  length (responses (effects
    (ask latin1_lower sample_python sample_script sample_body (Resolved flour_and_sugar) Child
         sample_stdout)))
  = (if forallb is_output sample_stdout then 0%nat else 1%nat) /\
  length (responses (effects
    (audio sample_python sample_script sample_resolve (Some sample_upload) Child
           deletion_fails)))
  = (if forallb is_quiet deletion_fails then 0%nat else 1%nat).
Proof.
  split; [reflexivity|].
  exact (answered_iff_error_or_close latin1_lower sample_python sample_script sample_resolve
           sample_body flour_and_sugar sample_upload sample_stdout deletion_fails
           eq_refl).
Defined.

(* ===================================================================== *)
(** ** More about /audio                                                 *)
(* ===================================================================== *)

(** /audio asks for one deletion per close event, always of the resolved
    path of the upload and of no other file; without a close event, without
    a file, or when [spawn] throws, nothing is deleted. *)
Theorem audio_unlinks_per_close
    (pythonPath scriptPath : jsstring) (path_resolve : jsstring -> jsstring)
    (req_file : option uploaded_file) (sp : spawn_result)
    (events : list audio_event) :
  unlinked (effects (audio pythonPath scriptPath path_resolve req_file sp events))
  = match req_file, sp with
    | Some file, Child => replicate (closes events) (path_resolve (path file))
    | _, _ => []
    end.
Proof.
  unfold audio. destruct req_file as [file|], sp as [|e]; try reflexivity.
  rewrite audio_handler_spawns. by rewrite audio_events_unlinks.
Qed.

(** A request to /audio without a file is answered 400 "No audio file
    uploaded" and nothing else happens, whatever [spawn] would have done
    and whatever events are offered. *)
Theorem audio_without_file
    (pythonPath scriptPath : jsstring) (path_resolve : jsstring -> jsstring)
    (sp : spawn_result) (events : list audio_event) :
  effects (audio pythonPath scriptPath path_resolve None sp events)
  = [ Send (mkResponse 400
              (JObj [ (lit "error", JStr (lit "No audio file uploaded")) ])) ].
Proof. unfold audio. run_handler. reflexivity. Qed.

(** When [spawn] throws in /audio the answer is 500 "Assistant audio
    processing failed" with the message of the exception; no listener is
    attached, so the upload stays on disk whatever follows. *)
Theorem audio_spawn_throws
    (pythonPath scriptPath : jsstring) (path_resolve : jsstring -> jsstring)
    (file : uploaded_file) (e : error) (events : list audio_event) :
  effects (audio pythonPath scriptPath path_resolve (Some file) (SpawnThrows e) events)
  = [ Spawn pythonPath [JStr scriptPath; JStr (lit "--audio");
                        JStr (path_resolve (path file))];
      ConsoleError (lit "Audio assistant error:") (message e);
      Send (mkResponse 500
              (JObj [ (lit "error", JStr (lit "Assistant audio processing failed"));
                      (lit "details", JStr (message e)) ])) ].
Proof. unfold audio. run_handler. reflexivity. Qed.

(* ===================================================================== *)
(** ** What a request costs                                              *)
(* ===================================================================== *)

Ltac tidy_queries :=
  simpl; rewrite ?queries_app, ?spawned_app; simpl; rewrite ?app_nil_r, ?Nat.add_0_r.

Lemma ask_listener_queries_nothing (e : child_event) (st : request) :
  queries (effects (emit (ask_listener e) st)) = queries (effects st).
Proof.
  destruct e as [c|c|err|code]; run_listener; try done; try (by tidy_queries).
  - destruct (headersSent st); by tidy_queries.
  - destruct (code_not_zero code || _); simpl; destruct (headersSent st);
      by tidy_queries.
Qed.

Lemma ask_events_query_nothing (events : list child_event) (st : request) :
  queries (effects (ask_events events st)) = queries (effects st).
Proof.
  revert st. induction events as [|e events IH]; intros st; [done|].
  simpl. change (fold_left _ events ?s) with (ask_events events s).
  by rewrite IH, ask_listener_queries_nothing.
Qed.

Lemma audio_listener_starts_nothing (filePath : jsstring) (e : audio_event)
    (st : request) :
  queries (effects (emit (audio_listener filePath e) st)) = queries (effects st) /\
  spawned (effects (emit (audio_listener filePath e) st)) = spawned (effects st).
Proof.
  destruct e as [[c|c|err|code]|[err|]]; run_listener; try done;
    try (by tidy_queries).
  - destruct (headersSent st); by tidy_queries.
  - destruct (code_not_zero code || _); simpl; destruct (headersSent st);
      by tidy_queries.
Qed.

Lemma audio_events_start_nothing (filePath : jsstring) (events : list audio_event)
    (st : request) :
  queries (effects (audio_events filePath events st)) = queries (effects st) /\
  spawned (effects (audio_events filePath events st)) = spawned (effects st).
Proof.
  revert st. induction events as [|e events IH]; intros st; [done|].
  simpl. change (fold_left _ events ?s) with (audio_events filePath events s).
  destruct (IH (emit (audio_listener filePath e) st)) as [-> ->].
  apply audio_listener_starts_nothing.
Qed.

(** Whatever the request and whatever happens afterwards, /ask queries the
    inventory at most once and starts at most one process, and it starts
    one only after the query has succeeded. *)
Theorem ask_one_query_one_process
    (toLowerCase : jsstring -> jsstring)
    (pythonPath scriptPath : jsstring) (body : value) (db : db_result)
    (sp : spawn_result) (events : list child_event) :
  (queries (effects (ask toLowerCase pythonPath scriptPath body db sp events)) <= 1)%nat /\
  (length (spawned (effects (ask toLowerCase pythonPath scriptPath body db sp events))) <= 1)%nat /\
  (spawned (effects (ask toLowerCase pythonPath scriptPath body db sp events)) <> [] ->
   queries (effects (ask toLowerCase pythonPath scriptPath body db sp events)) = 1%nat /\
   exists docs, db = Resolved docs).
Proof.
  unfold ask.
  destruct (ask_handler toLowerCase pythonPath scriptPath body db sp incoming) as [o st] eqn:Hh.
  assert (Hst : (queries (effects st) <= 1)%nat /\
                (length (spawned (effects st)) <= 1)%nat /\
                (spawned (effects st) <> [] ->
                 queries (effects st) = 1%nat /\ exists docs, db = Resolved docs)).
  { revert Hh. run_handler.
    destruct body; simpl;
      try (intros [= <- <-]; simpl; repeat split; (lia || done));
      (destruct (no_text _); simpl;
        [ intros [= <- <-]; simpl; repeat split; (lia || done) | ]);
      destruct db, sp; simpl; intros [= <- <-]; simpl;
        repeat split; try lia; try done; eauto. }
  destruct o as [[inv|]|e]; [|done|].
  - by rewrite ask_events_query_nothing, ask_events_spawn_nothing.
  - unfold emit, throw. simpl. by tidy_queries.
Qed.

(** /audio never queries the inventory and starts exactly one process per
    uploaded file, with the arguments [scriptPath], ["--audio"] and the
    resolved path of the upload, and none without a file. *)
Theorem audio_one_process_no_query
    (pythonPath scriptPath : jsstring) (path_resolve : jsstring -> jsstring)
    (req_file : option uploaded_file) (sp : spawn_result)
    (events : list audio_event) :
  queries (effects (audio pythonPath scriptPath path_resolve req_file sp events))
  = 0%nat /\
  spawned (effects (audio pythonPath scriptPath path_resolve req_file sp events))
  = match req_file with
    | Some file =>
        [ (pythonPath, [JStr scriptPath; JStr (lit "--audio");
                        JStr (path_resolve (path file))]) ]
    | None => []
    end.
Proof.
  unfold audio.
  destruct req_file as [file|], sp as [|e]; try (split; reflexivity).
  rewrite audio_handler_spawns.
  destruct (audio_events_start_nothing (path_resolve (path file)) events
              {| statusCode := 200; headersSent := false; data := [];
                 errorOutput := [];
                 effects := [Spawn pythonPath
                               [JStr scriptPath; JStr (lit "--audio");
                                JStr (path_resolve (path file))]] |}) as [-> ->].
  split; reflexivity.
Qed.

(* ===================================================================== *)
(** ** What a response looks like, and what is logged                    *)
(* ===================================================================== *)

Lemma silent_failures_app (logged : bool) (l1 l2 : list effect) :
  exists logged',
    silent_failures logged (l1 ++ l2)
    = silent_failures logged l1 ++ silent_failures logged' l2.
Proof.
  revert logged. induction l1 as [|e l1 IH]; intros logged; simpl.
  - by exists logged.
  - destruct e; simpl; try apply IH.
    destruct (IH false) as [logged' ->]. exists logged'. by rewrite app_assoc.
Qed.

Lemma silent_failures_grow (l1 l2 : list effect) :
  (forall logged, silent_failures logged l1 = []) ->
  (forall logged, silent_failures logged l2 = []) ->
  forall logged, silent_failures logged (l1 ++ l2) = [].
Proof.
  intros H1 H2 logged.
  destruct (silent_failures_app logged l1 l2) as [logged' ->].
  by rewrite H1, H2.
Qed.

Lemma failure_well_shaped (key : string) (said : jsstring)
    (rest : list (jsstring * value)) :
  well_shaped key (mkResponse 500 (JObj ((lit "error", JStr said) :: rest))).
Proof.
  right. split; [by right|]. eexists _, _. split; reflexivity.
Qed.

Lemma success_well_shaped (key : string) (answer : jsstring) :
  well_shaped key (mkResponse 200 (JObj [ (lit key, JStr answer) ])).
Proof. left. split; [done|]. by eexists. Qed.

Ltac tidy_parts Ht :=
  destruct Ht as (Hcode & Hshape & Hquiet); unfold tidy; simpl;
  rewrite <- ?app_assoc; simpl.

Ltac tidy_quiet Hquiet :=
  apply silent_failures_grow; [exact Hquiet | intros; reflexivity].

Ltac tidy_shape Hshape :=
  rewrite ?responses_app; simpl; rewrite ?app_nil_r;
  first [ exact Hshape
        | apply Forall_app; split;
          [ exact Hshape
          | apply Forall_cons; split; [|apply Forall_nil_2];
            first [ apply failure_well_shaped | apply success_well_shaped ] ] ].

Lemma ask_listener_tidy (e : child_event) (st : request) :
  tidy "reply" st -> tidy "reply" (emit (ask_listener e) st).
Proof.
  intros Ht. destruct e as [c|c|err|code]; run_listener.
  - exact Ht.
  - tidy_parts Ht. split; [exact Hcode|]. split; [tidy_shape Hshape|tidy_quiet Hquiet].
  - destruct (headersSent st) eqn:Hs; tidy_parts Ht.
    + split; [done|]. split; [tidy_shape Hshape|tidy_quiet Hquiet].
    + split; [done|]. split; [tidy_shape Hshape|tidy_quiet Hquiet].
  - destruct (code_not_zero code || _); simpl;
      destruct (headersSent st) eqn:Hs; tidy_parts Ht.
    + split; [done|]. split; [tidy_shape Hshape|tidy_quiet Hquiet].
    + split; [done|]. split; [tidy_shape Hshape|tidy_quiet Hquiet].
    + split; [done|]. split; [tidy_shape Hshape|tidy_quiet Hquiet].
    + rewrite (Hcode Hs).
      split; [done|]. split; [tidy_shape Hshape|tidy_quiet Hquiet].
Qed.

Lemma audio_listener_tidy (filePath : jsstring) (e : audio_event) (st : request) :
  tidy "response" st -> tidy "response" (emit (audio_listener filePath e) st).
Proof.
  intros Ht. destruct e as [[c|c|err|code]|[err|]]; run_listener.
  - exact Ht.
  - tidy_parts Ht. split; [exact Hcode|]. split; [tidy_shape Hshape|tidy_quiet Hquiet].
  - destruct (headersSent st) eqn:Hs; tidy_parts Ht.
    + split; [done|]. split; [tidy_shape Hshape|tidy_quiet Hquiet].
    + split; [done|]. split; [tidy_shape Hshape|tidy_quiet Hquiet].
  - destruct (code_not_zero code || _); simpl;
      destruct (headersSent st) eqn:Hs; tidy_parts Ht.
    + split; [done|]. split; [tidy_shape Hshape|tidy_quiet Hquiet].
    + split; [done|]. split; [tidy_shape Hshape|tidy_quiet Hquiet].
    + split; [done|]. split; [tidy_shape Hshape|tidy_quiet Hquiet].
    + rewrite (Hcode Hs).
      split; [done|]. split; [tidy_shape Hshape|tidy_quiet Hquiet].
  - tidy_parts Ht. split; [exact Hcode|]. split; [tidy_shape Hshape|tidy_quiet Hquiet].
  - exact Ht.
Qed.

Lemma ask_events_tidy (events : list child_event) (st : request) :
  tidy "reply" st -> tidy "reply" (ask_events events st).
Proof.
  revert st. induction events as [|e events IH]; intros st H; [done|].
  simpl. apply IH. by apply ask_listener_tidy.
Qed.

Lemma audio_events_tidy (filePath : jsstring) (events : list audio_event)
    (st : request) :
  tidy "response" st -> tidy "response" (audio_events filePath events st).
Proof.
  revert st. induction events as [|e events IH]; intros st H; [done|].
  simpl. apply IH. by apply audio_listener_tidy.
Qed.

Ltac tidy_start :=
  unfold tidy; simpl; split; [done|]; split;
  [ repeat (apply Forall_cons; split;
            [ first [ apply failure_well_shaped
                    | right; split; [by left|]; eexists _, _; split; reflexivity ] | ]);
    apply Forall_nil_2
  | intros; reflexivity ].

Lemma ask_tidy
    (toLowerCase : jsstring -> jsstring) (pythonPath scriptPath : jsstring)
    (body : value) (db : db_result)
    (sp : spawn_result) (events : list child_event) :
  tidy "reply" (ask toLowerCase pythonPath scriptPath body db sp events).
Proof.
  unfold ask.
  destruct (ask_handler toLowerCase pythonPath scriptPath body db sp incoming) as [o st] eqn:Hh.
  assert (tidy "reply" st) as Hst.
  { revert Hh. run_handler.
    destruct body; simpl;
      try (intros [= <- <-]; tidy_start);
      (destruct (no_text _); simpl; [ intros [= <- <-]; tidy_start | ]);
      destruct db, sp; simpl; intros [= <- <-]; tidy_start. }
  destruct o as [[inv|]|e]; [by apply ask_events_tidy|done|].
  unfold emit, throw. simpl. tidy_parts Hst.
  split; [done|]. split; [tidy_shape Hshape|tidy_quiet Hquiet].
Qed.

Lemma audio_tidy (pythonPath scriptPath : jsstring) (path_resolve : jsstring -> jsstring)
    (req_file : option uploaded_file) (sp : spawn_result) (events : list audio_event) :
  tidy "response" (audio pythonPath scriptPath path_resolve req_file sp events).
Proof.
  unfold audio.
  destruct (audio_handler pythonPath scriptPath path_resolve req_file sp incoming)
    as [o st] eqn:Hh.
  assert (tidy "response" st) as Hst.
  { revert Hh. run_handler.
    destruct req_file, sp; simpl; intros [= <- <-]; tidy_start. }
  destruct o as [[fp|]|e]; [by apply audio_events_tidy|done|].
  unfold emit, throw. simpl. tidy_parts Hst.
  split; [done|]. split; [tidy_shape Hshape|tidy_quiet Hquiet].
Qed.

(** Every response of either route, whatever the request and whatever the
    child does, is one of two kinds: status 200 with exactly the answer
    ([reply] in /ask, [response] in /audio), or status 400 or 500 with a
    body whose [error] property is a string.  No failure is sent with
    status 200 and no answer with a failure status. *)
Theorem responses_well_shaped
    (toLowerCase : jsstring -> jsstring)
    (pythonPath scriptPath : jsstring) (path_resolve : jsstring -> jsstring)
    (body : value) (db : db_result) (req_file : option uploaded_file)
    (sp : spawn_result) (events : list child_event)
    (audio_trace : list audio_event) :
  Forall (well_shaped "reply")
    (responses (effects (ask toLowerCase pythonPath scriptPath body db sp events))) /\
  Forall (well_shaped "response")
    (responses (effects
       (audio pythonPath scriptPath path_resolve req_file sp audio_trace))).
Proof.
  split.
  - apply ask_tidy.
  - apply audio_tidy.
Qed.

(** Every response with status 500 is sent directly after a call of
    [console.error]: no server-side failure reaches the client without
    having been logged first. *)
Theorem failures_are_logged
    (toLowerCase : jsstring -> jsstring)
    (pythonPath scriptPath : jsstring) (path_resolve : jsstring -> jsstring)
    (body : value) (db : db_result) (req_file : option uploaded_file)
    (sp : spawn_result) (events : list child_event)
    (audio_trace : list audio_event) :
  silent_failures false (effects (ask toLowerCase pythonPath scriptPath body db sp events)) = [] /\
  silent_failures false
    (effects (audio pythonPath scriptPath path_resolve req_file sp audio_trace)) = [].
Proof.
  split.
  - apply ask_tidy.
  - apply audio_tidy.
Qed.

(* ===================================================================== *)
(** ** The standard error of the child                                   *)
(* ===================================================================== *)

Lemma console_lines_app (label : jsstring) (l1 l2 : list effect) :
  console_lines label (l1 ++ l2) = console_lines label l1 ++ console_lines label l2.
Proof.
  induction l1 as [|e l1 IH]; simpl; [done|].
  destruct e; simpl; rewrite ?IH; try done. by case_decide.
Qed.

Ltac tidy_console :=
  simpl; rewrite ?console_lines_app; simpl;
  repeat (case_decide; [discriminate|]); rewrite ?app_nil_r.

Lemma ask_listener_console (e : child_event) (st : request) :
  console_lines (lit "Python stderr:") (effects (emit (ask_listener e) st))
  = console_lines (lit "Python stderr:") (effects st) ++ stderr_chunks [e].
Proof.
  destruct e as [c|c|err|code]; run_listener.
  - by rewrite app_nil_r.
  - rewrite console_lines_app. by simpl.
  - destruct (headersSent st); by tidy_console.
  - destruct (code_not_zero code || _); simpl; destruct (headersSent st);
      by tidy_console.
Qed.

Lemma stderr_chunks_cons (e : child_event) (events : list child_event) :
  stderr_chunks (e :: events) = stderr_chunks [e] ++ stderr_chunks events.
Proof. by destruct e. Qed.

Lemma ask_events_console (events : list child_event) (st : request) :
  console_lines (lit "Python stderr:") (effects (ask_events events st))
  = console_lines (lit "Python stderr:") (effects st) ++ stderr_chunks events.
Proof.
  revert st. induction events as [|e events IH]; intros st.
  - simpl. by rewrite app_nil_r.
  - change (ask_events (e :: events) st)
      with (ask_events events (emit (ask_listener e) st)).
    by rewrite IH, ask_listener_console, (stderr_chunks_cons e events), app_assoc.
Qed.

(** Every chunk the child writes to standard error is logged under
    "Python stderr:", one line per chunk and in the order of arrival, also
    after the request has been answered; nothing else is logged under that
    label. *)
Theorem ask_logs_every_stderr_chunk
    (toLowerCase : jsstring -> jsstring)
    (pythonPath scriptPath : jsstring) (body : value) (docs : list Ingredient)
    (events : list child_event) :
  no_text (property_text body) = false ->
  console_lines (lit "Python stderr:")
    (effects (ask toLowerCase pythonPath scriptPath body (Resolved docs) Child events))
  = stderr_chunks events.
Proof.
  intros Hok. destruct (property_text_accepted body Hok) as [Hu Hn].
  unfold ask.
  rewrite (ask_handler_spawns toLowerCase pythonPath scriptPath body _ docs Hu Hn eq_refl Hok).
  by rewrite ask_events_console.
Qed.

Lemma ask_logs_every_stderr_chunk_witness :
  no_text (property_text sample_body) = false /\
  console_lines (lit "Python stderr:")
    (effects (ask latin1_lower sample_python sample_script sample_body (Resolved flour_and_sugar)
                Child (sample_warning ++ [Close (Some 0%Z); StderrData (lit "late")])))
  = stderr_chunks (sample_warning ++ [Close (Some 0%Z); StderrData (lit "late")]).
Proof.
  split; [reflexivity|].
  exact (ask_logs_every_stderr_chunk latin1_lower sample_python sample_script sample_body
           flour_and_sugar
           (sample_warning ++ [Close (Some 0%Z); StderrData (lit "late")]) eq_refl).
Defined.

Lemma audio_listener_console (filePath : jsstring) (e : audio_event) (st : request) :
  console_lines (lit "Failed to delete temp audio file:")
    (effects (emit (audio_listener filePath e) st))
  = console_lines (lit "Failed to delete temp audio file:") (effects st)
      ++ unlink_failures [e].
Proof.
  destruct e as [[c|c|err|code]|[err|]]; run_listener;
    try (by rewrite app_nil_r); try (by tidy_console).
  - destruct (headersSent st); by tidy_console.
  - destruct (code_not_zero code || _); simpl; destruct (headersSent st);
      by tidy_console.
Qed.

Lemma unlink_failures_cons (e : audio_event) (events : list audio_event) :
  unlink_failures (e :: events) = unlink_failures [e] ++ unlink_failures events.
Proof. by destruct e as [|[|]]. Qed.

Lemma audio_events_console (filePath : jsstring) (events : list audio_event)
    (st : request) :
  console_lines (lit "Failed to delete temp audio file:")
    (effects (audio_events filePath events st))
  = console_lines (lit "Failed to delete temp audio file:") (effects st)
      ++ unlink_failures events.
Proof.
  revert st. induction events as [|e events IH]; intros st.
  - simpl. by rewrite app_nil_r.
  - change (audio_events filePath (e :: events) st)
      with (audio_events filePath events (emit (audio_listener filePath e) st)).
    by rewrite IH, audio_listener_console, (unlink_failures_cons e events), app_assoc.
Qed.

(** Every deletion that fails is logged under "Failed to delete temp audio
    file:" with its message, once and in order; a deletion that succeeds
    leaves no line. *)
Theorem audio_logs_unlink_failures
    (pythonPath scriptPath : jsstring) (path_resolve : jsstring -> jsstring)
    (file : uploaded_file) (events : list audio_event) :
  console_lines (lit "Failed to delete temp audio file:")
    (effects (audio pythonPath scriptPath path_resolve (Some file) Child events))
  = unlink_failures events.
Proof.
  unfold audio. rewrite audio_handler_spawns. by rewrite audio_events_console.
Qed.
